(** * Sections, headers and footers of a document

    A shallow embedding of [docx/section.py]: the [Sections] sequence, the
    [Section] proxy and the header/footer proxies [_BaseHeaderFooter],
    [_Footer] and [_Header].  The two collaborators the module talks to, the
    section-properties elements of the document tree and the document part
    that stores header parts, are kept in one explicit document state that
    every operation threads through. *)

From Stdlib Require Import ZArith Lia Bool.
From stdpp Require Import base option list list_numbers gmap strings.

Local Open Scope Z_scope.
Local Open Scope nat_scope.

(** ** Python values, exceptions and list indexing *)

(** The exceptions that can leave the modelled code.  [DanglingHandle] and
    [BudgetExhausted] belong to the model only: the first is the outcome of
    using a handle that names no element of the document (a proxy always
    holds a live element in the source), the second the outcome of
    exhausting the recursion budget of [_get_or_add_header_part_rec], shown
    unreachable below.  The interpreter's own recursion limit is not
    modelled. *)
Inductive exn : Type :=
  | IndexError
  | KeyError
  | ValueError
  | AttributeError
  | NotImplementedError
  | DanglingHandle
  | BudgetExhausted.

Inductive result (A : Type) : Type :=
  | Ok (a : A)
  | Raise (e : exn).
Arguments Ok {A} a.
Arguments Raise {A} e.

(** Values that may be assigned to a property; [py_bool] is Python's
    [bool(value)]. *)
Inductive py_value : Type :=
  | PyNone
  | PyBool (b : bool)
  | PyInt (z : Z)
  | PyStr (s : string).

Definition py_bool (value : py_value) : bool :=
  match value with
  | PyNone => false
  | PyBool b => b
  | PyInt z => negb (z =? 0)%Z
  | PyStr s => negb (String.eqb s EmptyString)
  end.

(** [l[key]] for an integer key: negative keys count from the end, anything
    outside [-len, len) is an [IndexError]. *)
Definition list_getitem {A : Type} (l : list A) (key : Z) : result A :=
  let len := Z.of_nat (length l) in
  let k := (if key <? 0 then key + len else key)%Z in
  if ((0 <=? k) && (k <? len))%Z then
    match l !! Z.to_nat k with
    | Some x => Ok x
    | None => Raise IndexError
    end
  else Raise IndexError.

(** Clipping of one slice bound, as [slice.indices] does it. *)
Definition slice_adjust (len step i : Z) : Z :=
  if (i <? 0)%Z then
    let i' := (i + len)%Z in
    if (i' <? 0)%Z then (if (step <? 0)%Z then (-1)%Z else 0%Z) else i'
  else if (len <=? i)%Z then (if (step <? 0)%Z then (len - 1)%Z else len)
  else i.

(** [l[start:stop:step]]; a zero step is a [ValueError]. *)
Definition list_getslice {A : Type} (l : list A) (start stop step : option Z)
  : result (list A) :=
  let len := Z.of_nat (length l) in
  let st := default 1%Z step in
  if (st =? 0)%Z then Raise ValueError
  else
    let lo :=
      match start with
      | Some i => slice_adjust len st i
      | None => if (st <? 0)%Z then (len - 1)%Z else 0%Z
      end in
    let hi :=
      match stop with
      | Some i => slice_adjust len st i
      | None => if (st <? 0)%Z then (-1)%Z else len
      end in
    let count :=
      if (st <? 0)%Z
      then (if (hi <? lo)%Z then ((lo - hi - 1) / (- st) + 1)%Z else 0%Z)
      else (if (lo <? hi)%Z then ((hi - lo - 1) / st + 1)%Z else 0%Z) in
    Ok (omap (λ k : Z, l !! Z.to_nat (lo + k * st)%Z) (seqZ 0 count)).

(** ** The document state *)

(** Modelled from the spec: the header/footer selector [WD_HEADER_FOOTER]
    (declared in [docx.enum.section]); only [PRIMARY] is used by the module,
    the first-page and even-page roles are the other selectors the spec
    names. *)
Inductive WD_HEADER_FOOTER : Type :=
  | PRIMARY
  | FIRST_PAGE
  | EVEN_PAGE.

#[global] Instance WD_HEADER_FOOTER_eq_dec : EqDecision WD_HEADER_FOOTER.
Proof. solve_decision. Defined.

Definition WD_HEADER_FOOTER_to_nat (t : WD_HEADER_FOOTER) : nat :=
  match t with PRIMARY => 0 | FIRST_PAGE => 1 | EVEN_PAGE => 2 end.

Definition WD_HEADER_FOOTER_of_nat (n : nat) : option WD_HEADER_FOOTER :=
  match n with
  | 0 => Some PRIMARY
  | 1 => Some FIRST_PAGE
  | 2 => Some EVEN_PAGE
  | _ => None
  end.

#[global] Instance WD_HEADER_FOOTER_countable : Countable WD_HEADER_FOOTER :=
  inj_countable WD_HEADER_FOOTER_to_nat WD_HEADER_FOOTER_of_nat
    (λ t, match t with
          | PRIMARY => eq_refl
          | FIRST_PAGE => eq_refl
          | EVEN_PAGE => eq_refl
          end).

(** Page-setup settings of a section, lengths in English Metric Units and
    [None] when the setting is absent.  The header/footer code never reads or
    writes them; they are part of the state so that frame properties speak
    about the whole element. *)
Record PageSetup : Type := mkPageSetup {
  bottom_margin : option Z;
  top_margin : option Z;
  left_margin : option Z;
  right_margin : option Z;
  gutter : option Z;
  header_distance : option Z;
  footer_distance : option Z;
  page_height : option Z;
  page_width : option Z
}.

(** Modelled from the spec: the section-properties element ([CT_SectPr] of
    the XML layer, not among the sources).  It holds at most one reference id
    per selector for headers and for footers, and the page setup.  A
    reference id ["rIdN"] is the number [N]. *)
Record CT_SectPr : Type := mkSectPr {
  headerReference : gmap WD_HEADER_FOOTER nat;
  footerReference : gmap WD_HEADER_FOOTER nat;
  page_setup : PageSetup
}.

(** A header part exposes its root content node [element]; its content is a
    list of paragraph texts, empty for a new part. *)
Record HeaderPart : Type := mkHeaderPart {
  element : list string
}.

(** The calls received by the part store, oldest first. *)
Inductive PartStoreCall : Type :=
  | Call_add_header_part
  | Call_header_part (rId : nat)
  | Call_drop_header_part (rId : nat).

(** The document: the section-properties elements in document order (an
    element is named by its position, which no modelled operation changes),
    the header parts of the document part keyed by reference id, and the
    trace of part-store calls. *)
Record Document : Type := mkDocument {
  sectPrs : list CT_SectPr;
  related_parts : gmap nat HeaderPart;
  calls : list PartStoreCall
}.

(** ** Stateful computations that may raise *)

(** A computation runs on a document and yields a value or an exception
    together with the document as it stands then: what was mutated before an
    exception stays mutated. *)
Definition M (A : Type) : Type := Document → result A * Document.

Definition ret {A : Type} (a : A) : M A := λ d, (Ok a, d).

Definition raise {A : Type} (e : exn) : M A := λ d, (Raise e, d).

Definition bind {A B : Type} (c : M A) (k : A → M B) : M B :=
  λ d, match c d with
       | (Ok a, d') => k a d'
       | (Raise e, d') => (Raise e, d')
       end.

Declare Scope py_scope.
Delimit Scope py_scope with py.
Notation "x <- c ;; k" := (bind c (λ x, k))
  (at level 100, c at next level, right associativity) : py_scope.
Notation "c ;;; k" := (bind c (λ _, k))
  (at level 100, right associativity) : py_scope.
Local Open Scope py_scope.

Definition lift_result {A : Type} (r : result A) : M A := λ d, (r, d).

(** A computation is read-only when it hands back the document it got. *)
Definition read_only {A : Type} (c : M A) : Prop :=
  ∀ d, snd (c d) = d.

(** ** The section-properties collaborator *)

Definition with_headerReference (sp : CT_SectPr)
  (refs : gmap WD_HEADER_FOOTER nat) : CT_SectPr :=
  {| headerReference := refs;
     footerReference := footerReference sp;
     page_setup := page_setup sp |}.

(** The element a handle names. *)
Definition the_sectPr (self : nat) : M CT_SectPr :=
  λ d, match sectPrs d !! self with
       | Some sp => (Ok sp, d)
       | None => (Raise DanglingHandle, d)
       end.

Definition put_sectPr (self : nat) (sp : CT_SectPr) : M unit :=
  λ d, (Ok tt, {| sectPrs := <[self := sp]> (sectPrs d);
                  related_parts := related_parts d;
                  calls := calls d |}).

(** Modelled from the spec: [get_reference(selector)] of the properties
    collaborator, the reference id or none.  The module only tests the
    answer against [None] and reads its [rId]. *)
Definition get_headerReference (self : nat) (type_ : WD_HEADER_FOOTER)
  : M (option nat) :=
  sp <- the_sectPr self ;;
  ret (headerReference sp !! type_).

(** Modelled from the spec: the same lookup for footer references. *)
Definition get_footerReference (self : nat) (type_ : WD_HEADER_FOOTER)
  : M (option nat) :=
  sp <- the_sectPr self ;;
  ret (footerReference sp !! type_).

(** Modelled from the spec: [add_reference(selector, id)] of the properties
    collaborator. *)
Definition add_headerReference (self : nat) (type_ : WD_HEADER_FOOTER)
  (rId : nat) : M unit :=
  sp <- the_sectPr self ;;
  put_sectPr self (with_headerReference sp (<[type_ := rId]> (headerReference sp))).

(** Modelled from the spec: [remove_reference(selector)] of the properties
    collaborator, which answers the removed id.  The spec gives no answer
    when there is no reference; the model raises there. *)
Definition remove_headerReference (self : nat) (type_ : WD_HEADER_FOOTER)
  : M nat :=
  sp <- the_sectPr self ;;
  match headerReference sp !! type_ with
  | None => raise AttributeError
  | Some rId =>
      put_sectPr self (with_headerReference sp (delete type_ (headerReference sp))) ;;;
      ret rId
  end.

(** Modelled from the spec: [preceding()] of the properties collaborator,
    the document-order predecessor or none. *)
Definition preceding_sectPr (self : nat) : M (option nat) :=
  the_sectPr self ;;;
  ret (match self with
       | O => None
       | S j => Some j
       end).

(** Modelled from the spec: the list of section-properties elements of the
    document element, in document order. *)
Definition sectPr_lst : M (list nat) :=
  λ d, (Ok (seq 0 (length (sectPrs d))), d).

(** ** The part-store collaborator *)

Definition log_call (c : PartStoreCall) : M unit :=
  λ d, (Ok tt, {| sectPrs := sectPrs d;
                  related_parts := related_parts d;
                  calls := calls d ++ [c] |}).

(** Modelled from the spec: [add_header_part()] of the part store, a new
    empty part and a freshly minted reference id. *)
Definition add_header_part : M (HeaderPart * nat) :=
  log_call Call_add_header_part ;;;
  λ d, let rId := fresh (dom (related_parts d)) in
       let header_part := {| element := [] |} in
       (Ok (header_part, rId),
        {| sectPrs := sectPrs d;
           related_parts := <[rId := header_part]> (related_parts d);
           calls := calls d |}).

(** Modelled from the spec: [header_part(reference_id)] of the part store;
    an id with no part is the store's error. *)
Definition header_part (rId : nat) : M HeaderPart :=
  log_call (Call_header_part rId) ;;;
  λ d, match related_parts d !! rId with
       | Some p => (Ok p, d)
       | None => (Raise KeyError, d)
       end.

(** Modelled from the spec: [drop_header_part(reference_id)] of the part
    store. *)
Definition drop_header_part (rId : nat) : M unit :=
  log_call (Call_drop_header_part rId) ;;;
  λ d, (Ok tt, {| sectPrs := sectPrs d;
                  related_parts := delete rId (related_parts d);
                  calls := calls d |}).

(** ** class Section *)

(** A section proxy wraps one section-properties element; the document part
    it also holds is the one of the state. *)
Record Section : Type := mkSection {
  Section_sectPr : nat
}.

(** ** classes _BaseHeaderFooter, _Footer, _Header *)

Inductive HeaderFooterClass : Type :=
  | cls_BaseHeaderFooter
  | cls_Footer
  | cls_Header.

Record HeaderFooter : Type := mkHeaderFooter {
  cls : HeaderFooterClass;
  _sectPr : nat
}.

Definition _Footer (sectPr : nat) : HeaderFooter :=
  {| cls := cls_Footer; _sectPr := sectPr |}.

Definition _Header (sectPr : nat) : HeaderFooter :=
  {| cls := cls_Header; _sectPr := sectPr |}.

(** [Section.footer] and [Section.header]: the memoised proxy is a value
    determined by the wrapped element. *)
Definition footer (self : Section) : HeaderFooter :=
  _Footer (Section_sectPr self).

Definition header (self : Section) : HeaderFooter :=
  _Header (Section_sectPr self).

(** [_has_definition]: [_Footer] overrides it; [_Header] does not and, like
    the base class, inherits the stub that raises. *)
Definition _has_definition (self : HeaderFooter) : M bool :=
  match cls self with
  | cls_Footer =>
      footerReference <- get_footerReference (_sectPr self) PRIMARY ;;
      ret (match footerReference with
           | None => false
           | Some _ => true
           end)
  | cls_BaseHeaderFooter | cls_Header => raise NotImplementedError
  end.

(** [_Header._has_header_part] *)
Definition _has_header_part (self : HeaderFooter) : M bool :=
  headerReference <- get_headerReference (_sectPr self) PRIMARY ;;
  ret (match headerReference with
       | None => false
       | Some _ => true
       end).

(** The getter of [is_linked_to_previous]: [_Header] overrides the one of
    the base class. *)
Definition is_linked_to_previous (self : HeaderFooter) : M bool :=
  match cls self with
  | cls_Header =>
      b <- _has_header_part self ;;
      ret (negb b)
  | cls_BaseHeaderFooter | cls_Footer =>
      b <- _has_definition self ;;
      ret (negb b)
  end.

(** [_Header._add_header_part] *)
Definition _add_header_part (self : HeaderFooter) : M HeaderPart :=
  pr <- add_header_part ;;
  let '(header_part, rId) := pr in
  add_headerReference (_sectPr self) PRIMARY rId ;;;
  ret header_part.

(** [_Header._drop_header_part] *)
Definition _drop_header_part (self : HeaderFooter) : M unit :=
  rId <- remove_headerReference (_sectPr self) PRIMARY ;;
  drop_header_part rId.

(** The setter of [is_linked_to_previous], which only [_Header] has: on the
    other classes the property cannot be assigned. *)
Definition set_is_linked_to_previous (self : HeaderFooter) (value : py_value)
  : M unit :=
  match cls self with
  | cls_Header =>
      let new_state := py_bool value in
      current <- is_linked_to_previous self ;;
      if Bool.eqb new_state current then ret tt
      else if new_state then _drop_header_part self
      else (_add_header_part self ;;; ret tt)
  | cls_BaseHeaderFooter | cls_Footer => raise AttributeError
  end.

(** [_Header._header_part] *)
Definition _header_part (self : HeaderFooter) : M HeaderPart :=
  headerReference <- get_headerReference (_sectPr self) PRIMARY ;;
  match headerReference with
  | None => raise AttributeError
  | Some rId => header_part rId
  end.

(** [_Header._prior_header] *)
Definition _prior_header (self : HeaderFooter) : M (option HeaderFooter) :=
  preceding_sectPr <- preceding_sectPr (_sectPr self) ;;
  ret (match preceding_sectPr with
       | None => None
       | Some sp => Some (_Header sp)
       end).

(** [_Header._get_or_add_header_part], with a budget for the recursive
    calls. *)
Fixpoint _get_or_add_header_part_rec (fuel : nat) (self : HeaderFooter)
  : M HeaderPart :=
  match fuel with
  | O => raise BudgetExhausted
  | S fuel' =>
      has <- _has_header_part self ;;
      if has then _header_part self
      else
        prior_header <- _prior_header self ;;
        match prior_header with
        | Some prior => _get_or_add_header_part_rec fuel' prior
        | None => _add_header_part self
        end
  end.

(** The budget is one more than the number of sections, which the chain of
    preceding sections never exceeds. *)
Definition _get_or_add_header_part (self : HeaderFooter) : M HeaderPart :=
  λ d, _get_or_add_header_part_rec (S (length (sectPrs d))) self d.

(** [_Header._element] *)
Definition _element (self : HeaderFooter) : M (list string) :=
  part <- _get_or_add_header_part self ;;
  ret (element part).

(** ** class Sections *)

Inductive key : Type :=
  | Key_int (i : Z)
  | Key_slice (start stop step : option Z).

Inductive item : Type :=
  | Item_section (s : Section)
  | Item_list (l : list Section).

Definition __getitem__ (k : key) : M item :=
  match k with
  | Key_slice start stop step =>
      lst <- sectPr_lst ;;
      sl <- lift_result (list_getslice lst start stop step) ;;
      ret (Item_list (mkSection <$> sl))
  | Key_int i =>
      lst <- sectPr_lst ;;
      sectPr <- lift_result (list_getitem lst i) ;;
      ret (Item_section (mkSection sectPr))
  end.

(** [__iter__]: the sections the generator yields, in the order it yields
    them. *)
Definition __iter__ : M (list Section) :=
  lst <- sectPr_lst ;;
  ret (mkSection <$> lst).

Definition __len__ : M nat :=
  lst <- sectPr_lst ;;
  ret (length lst).

(** ** Sample documents *)

Definition blank_page_setup : PageSetup :=
  mkPageSetup None None None None None None None None None.

(** A section whose header is defined by the part with reference id [rId]. *)
Definition sectPr_defined (rId : nat) : CT_SectPr :=
  mkSectPr {[ PRIMARY := rId ]} ∅ blank_page_setup.

(** A section with neither a header nor a footer reference. *)
Definition sectPr_linked : CT_SectPr :=
  mkSectPr ∅ ∅ blank_page_setup.

(** A section with a footer reference only. *)
Definition sectPr_footer (rId : nat) : CT_SectPr :=
  mkSectPr ∅ {[ PRIMARY := rId ]} blank_page_setup.

Definition letterhead : HeaderPart :=
  {| element := ["Letterhead"%string] |}.

(** Three sections, the first with a header, the other two inheriting. *)
Definition doc_chain : Document :=
  mkDocument [sectPr_defined 7; sectPr_linked; sectPr_linked]
    {[ 7 := letterhead ]} [].

(** One section without a header. *)
Definition doc_single : Document :=
  mkDocument [sectPr_linked] ∅ [].

(** Two sections, the second with a footer. *)
Definition doc_footer : Document :=
  mkDocument [sectPr_defined 7; sectPr_footer 9] {[ 7 := letterhead ]} [].

(** ** Notions used to state properties of whole documents *)

(** Section [k] exists and inherits its header: it has no primary header
    reference. *)
Definition inherits_header (d : Document) (k : nat) : Prop :=
  ∃ sp, sectPrs d !! k = Some sp ∧ headerReference sp !! PRIMARY = None.

(** Every primary header reference of the document names a stored part. *)
Definition references_resolve (d : Document) : Prop :=
  ∀ (k : nat) (sp : CT_SectPr) (rId : nat),
    sectPrs d !! k = Some sp →
    headerReference sp !! PRIMARY = Some rId →
    is_Some (related_parts d !! rId).

(** What an operation on headers may change in a section-properties
    element: its primary header reference, nothing else. *)
Definition same_but_primary_header (sp sp' : CT_SectPr) : Prop :=
  footerReference sp' = footerReference sp
  ∧ page_setup sp' = page_setup sp
  ∧ ∀ type_, type_ ≠ PRIMARY →
      headerReference sp' !! type_ = headerReference sp !! type_.

(** The document a part-store call leaves when it changes nothing but the
    trace. *)
Definition logged (c : PartStoreCall) (d : Document) : Document :=
  {| sectPrs := sectPrs d;
     related_parts := related_parts d;
     calls := calls d ++ [c] |}.

(** The document [_add_header_part] leaves on the section [i] with
    element [sp]. *)
Definition with_new_header (d : Document) (i : nat) (sp : CT_SectPr) : Document :=
  {| sectPrs :=
       <[i := with_headerReference sp
                (<[PRIMARY := fresh (dom (related_parts d))]> (headerReference sp))]>
         (sectPrs d);
     related_parts :=
       <[fresh (dom (related_parts d)) := {| element := [] |}]> (related_parts d);
     calls := calls d ++ [Call_add_header_part] |}.

(** * Properties *)

(** ** Running the primitives *)

Lemma bind_ok {A B : Type} (c : M A) (k : A → M B) (d d' : Document) (a : A) :
  c d = (Ok a, d') → bind c k d = k a d'.
Proof. intros H. unfold bind. by rewrite H. Qed.

Lemma bind_raise {A B : Type} (c : M A) (k : A → M B) (d d' : Document) (e : exn) :
  c d = (Raise e, d') → bind c k d = (Raise e, d').
Proof. intros H. unfold bind. by rewrite H. Qed.

Lemma read_only_ret {A : Type} (a : A) : read_only (ret a).
Proof. by intros d. Qed.

Lemma read_only_raise {A : Type} (e : exn) : read_only (@raise A e).
Proof. by intros d. Qed.

Lemma read_only_lift_result {A : Type} (r : result A) : read_only (lift_result r).
Proof. by intros d. Qed.

Lemma read_only_bind {A B : Type} (c : M A) (k : A → M B) :
  read_only c → (∀ a, read_only (k a)) → read_only (bind c k).
Proof.
  intros Hc Hk d. unfold bind.
  specialize (Hc d). destruct (c d) as [[a|e] d']; simpl in Hc; subst d'.
  - apply Hk.
  - done.
Qed.

Lemma read_only_the_sectPr (self : nat) : read_only (the_sectPr self).
Proof. intros d. unfold the_sectPr. by destruct (sectPrs d !! self). Qed.

Lemma read_only_sectPr_lst : read_only sectPr_lst.
Proof. by intros d. Qed.

Create HintDb read_only_db.
#[local] Hint Resolve read_only_ret read_only_raise read_only_lift_result
  read_only_the_sectPr read_only_sectPr_lst : read_only_db.

Ltac solve_read_only :=
  repeat first
    [ apply read_only_bind; [| intros ?]
    | progress auto with read_only_db
    | match goal with |- read_only (match ?x with _ => _ end) => destruct x end ].

Lemma read_only_get_headerReference (self : nat) (type_ : WD_HEADER_FOOTER) :
  read_only (get_headerReference self type_).
Proof. unfold get_headerReference. solve_read_only. Qed.

Lemma read_only_get_footerReference (self : nat) (type_ : WD_HEADER_FOOTER) :
  read_only (get_footerReference self type_).
Proof. unfold get_footerReference. solve_read_only. Qed.

Lemma read_only_preceding_sectPr (self : nat) : read_only (preceding_sectPr self).
Proof. unfold preceding_sectPr. solve_read_only. Qed.

#[local] Hint Resolve read_only_get_headerReference
  read_only_get_footerReference read_only_preceding_sectPr : read_only_db.

Lemma read_only_has_definition (self : HeaderFooter) :
  read_only (_has_definition self).
Proof. unfold _has_definition. solve_read_only. Qed.

Lemma read_only_has_header_part (self : HeaderFooter) :
  read_only (_has_header_part self).
Proof. unfold _has_header_part. solve_read_only. Qed.

Lemma read_only_prior_header (self : HeaderFooter) :
  read_only (_prior_header self).
Proof. unfold _prior_header. solve_read_only. Qed.

#[local] Hint Resolve read_only_has_definition read_only_has_header_part
  read_only_prior_header : read_only_db.

Lemma read_only_is_linked_to_previous (self : HeaderFooter) :
  read_only (is_linked_to_previous self).
Proof. unfold is_linked_to_previous. solve_read_only. Qed.

Lemma read_only_getitem (k : key) : read_only (__getitem__ k).
Proof. unfold __getitem__. solve_read_only. Qed.

Lemma read_only_iter : read_only __iter__.
Proof. unfold __iter__. solve_read_only. Qed.

Lemma read_only_len : read_only __len__.
Proof. unfold __len__. solve_read_only. Qed.

(** What the lookups answer on an element of the document. *)
Section element_reads.
Context (d : Document) (i : nat) (sp : CT_SectPr).
Hypothesis Hsp : sectPrs d !! i = Some sp.

Lemma the_sectPr_run : the_sectPr i d = (Ok sp, d).
Proof using Hsp. unfold the_sectPr. by rewrite Hsp. Qed.

Lemma get_headerReference_run (type_ : WD_HEADER_FOOTER) :
  get_headerReference i type_ d = (Ok (headerReference sp !! type_), d).
Proof using Hsp.
  unfold get_headerReference. by rewrite (bind_ok _ _ _ _ _ the_sectPr_run).
Qed.

Lemma get_footerReference_run (type_ : WD_HEADER_FOOTER) :
  get_footerReference i type_ d = (Ok (footerReference sp !! type_), d).
Proof using Hsp.
  unfold get_footerReference. by rewrite (bind_ok _ _ _ _ _ the_sectPr_run).
Qed.

Lemma preceding_sectPr_run :
  preceding_sectPr i d = (Ok (match i with O => None | S j => Some j end), d).
Proof using Hsp.
  unfold preceding_sectPr. by rewrite (bind_ok _ _ _ _ _ the_sectPr_run).
Qed.

Lemma has_header_part_run (cl : HeaderFooterClass) :
  _has_header_part (mkHeaderFooter cl i) d
  = (Ok (bool_decide (is_Some (headerReference sp !! PRIMARY))), d).
Proof using Hsp.
  unfold _has_header_part. simpl.
  rewrite (bind_ok _ _ _ _ _ (get_headerReference_run PRIMARY)).
  by destruct (headerReference sp !! PRIMARY).
Qed.

Lemma prior_header_run (cl : HeaderFooterClass) :
  _prior_header (mkHeaderFooter cl i) d
  = (Ok (match i with O => None | S j => Some (_Header j) end), d).
Proof using Hsp.
  unfold _prior_header. simpl.
  rewrite (bind_ok _ _ _ _ _ preceding_sectPr_run). by destruct i.
Qed.

Lemma header_part_of_run (cl : HeaderFooterClass) (rId : nat) :
  headerReference sp !! PRIMARY = Some rId →
  _header_part (mkHeaderFooter cl i) d = header_part rId d.
Proof using Hsp.
  intros Href. unfold _header_part. simpl.
  rewrite (bind_ok _ _ _ _ _ (get_headerReference_run PRIMARY)).
  by rewrite Href.
Qed.
End element_reads.

(** What the two mutations of [_Header] do on an element of the document. *)
Lemma add_header_part_run (d : Document) :
  add_header_part d
  = (Ok ({| element := [] |}, fresh (dom (related_parts d))),
     {| sectPrs := sectPrs d;
        related_parts :=
          <[fresh (dom (related_parts d)) := {| element := [] |}]> (related_parts d);
        calls := calls d ++ [Call_add_header_part] |}).
Proof. reflexivity. Qed.

Lemma fresh_rId_unused (d : Document) :
  related_parts d !! fresh (dom (related_parts d)) = None.
Proof. apply not_elem_of_dom, is_fresh. Qed.

Lemma add_header_part_of_run (d : Document) (i : nat) (sp : CT_SectPr)
  (cl : HeaderFooterClass) :
  sectPrs d !! i = Some sp →
  _add_header_part (mkHeaderFooter cl i) d
  = (Ok {| element := [] |},
     {| sectPrs :=
          <[i := with_headerReference sp
                   (<[PRIMARY := fresh (dom (related_parts d))]> (headerReference sp))]>
            (sectPrs d);
        related_parts :=
          <[fresh (dom (related_parts d)) := {| element := [] |}]> (related_parts d);
        calls := calls d ++ [Call_add_header_part] |}).
Proof.
  intros Hsp. unfold _add_header_part.
  rewrite (bind_ok _ _ _ _ _ (add_header_part_run d)).
  unfold add_headerReference, bind, the_sectPr, put_sectPr, ret.
  cbn [sectPrs related_parts calls _sectPr]. by rewrite Hsp.
Qed.

Lemma drop_header_part_of_run (d : Document) (i : nat) (sp : CT_SectPr)
  (cl : HeaderFooterClass) (rId : nat) :
  sectPrs d !! i = Some sp →
  headerReference sp !! PRIMARY = Some rId →
  _drop_header_part (mkHeaderFooter cl i) d
  = (Ok tt,
     {| sectPrs :=
          <[i := with_headerReference sp (delete PRIMARY (headerReference sp))]>
            (sectPrs d);
        related_parts := delete rId (related_parts d);
        calls := calls d ++ [Call_drop_header_part rId] |}).
Proof.
  intros Hsp Href.
  unfold _drop_header_part, remove_headerReference, bind, the_sectPr.
  cbn [_sectPr]. by rewrite Hsp, Href.
Qed.

(** ** The recursion of [_get_or_add_header_part] *)

(** Any budget above the position of the section gives the same outcome. *)
Lemma get_or_add_header_part_rec_budget (i : nat) :
  ∀ (n m : nat) (cl : HeaderFooterClass) (d : Document),
    i < n → i < m →
    _get_or_add_header_part_rec n (mkHeaderFooter cl i) d
    = _get_or_add_header_part_rec m (mkHeaderFooter cl i) d.
Proof.
  induction i as [|j IH]; intros n m cl d Hn Hm;
    (destruct n as [|n]; [lia |]); (destruct m as [|m]; [lia |]); simpl.
  - destruct (sectPrs d !! 0) as [sp|] eqn:Hsp.
    + rewrite !(bind_ok _ _ _ _ _ (has_header_part_run d 0 sp Hsp cl)).
      case_bool_decide; [done |].
      by rewrite !(bind_ok _ _ _ _ _ (prior_header_run d 0 sp Hsp cl)).
    + unfold _has_header_part, get_headerReference, the_sectPr, bind; simpl.
      by rewrite Hsp.
  - destruct (sectPrs d !! S j) as [sp|] eqn:Hsp.
    + rewrite !(bind_ok _ _ _ _ _ (has_header_part_run d (S j) sp Hsp cl)).
      case_bool_decide; [done |].
      rewrite !(bind_ok _ _ _ _ _ (prior_header_run d (S j) sp Hsp cl)).
      apply IH; lia.
    + unfold _has_header_part, get_headerReference, the_sectPr, bind; simpl.
      by rewrite Hsp.
Qed.

(** The function satisfies the equation its source text reads as. *)
Lemma get_or_add_header_part_unfold (self : HeaderFooter) (d : Document) :
  _get_or_add_header_part self d
  = (has <- _has_header_part self ;;
     if has then _header_part self
     else
       prior_header <- _prior_header self ;;
       match prior_header with
       | Some prior => _get_or_add_header_part prior
       | None => _add_header_part self
       end) d.
Proof.
  destruct self as [cl i]. unfold _get_or_add_header_part at 1. simpl.
  destruct (sectPrs d !! i) as [sp|] eqn:Hsp.
  - rewrite !(bind_ok _ _ _ _ _ (has_header_part_run d i sp Hsp cl)).
    case_bool_decide; [done |].
    rewrite !(bind_ok _ _ _ _ _ (prior_header_run d i sp Hsp cl)).
    destruct i as [|j]; [done |].
    unfold _get_or_add_header_part, _Header.
    apply lookup_lt_Some in Hsp.
    apply get_or_add_header_part_rec_budget; lia.
  - unfold _has_header_part, get_headerReference, the_sectPr, bind; simpl.
    by rewrite Hsp.
Qed.

(** The budget is never exhausted. *)
Lemma get_or_add_header_part_rec_step (n i : nat) (cl : HeaderFooterClass)
  (d : Document) :
  (∀ j, i = S j →
     fst (_get_or_add_header_part_rec n (_Header j) d) ≠ Raise BudgetExhausted) →
  fst (_get_or_add_header_part_rec (S n) (mkHeaderFooter cl i) d)
  ≠ Raise BudgetExhausted.
Proof.
  intros Hprior. simpl.
  destruct (sectPrs d !! i) as [sp|] eqn:Hsp.
  - rewrite (bind_ok _ _ _ _ _ (has_header_part_run d i sp Hsp cl)).
    case_bool_decide as Href.
    + destruct Href as [rId Href].
      rewrite (header_part_of_run d i sp Hsp cl rId Href).
      unfold header_part, log_call, bind; simpl.
      by destruct (related_parts d !! rId).
    + rewrite (bind_ok _ _ _ _ _ (prior_header_run d i sp Hsp cl)).
      destruct i as [|j].
      * by rewrite (add_header_part_of_run d 0 sp cl Hsp).
      * by apply Hprior.
  - unfold _has_header_part, get_headerReference, the_sectPr, bind; simpl.
    by rewrite Hsp.
Qed.

Lemma get_or_add_header_part_rec_total (i : nat) :
  ∀ (n : nat) (cl : HeaderFooterClass) (d : Document),
    i < n →
    fst (_get_or_add_header_part_rec n (mkHeaderFooter cl i) d) ≠ Raise BudgetExhausted.
Proof.
  induction i as [|j IH]; intros n cl d Hn; (destruct n as [|n]; [lia |]);
    apply get_or_add_header_part_rec_step; intros j' Hj'; [done |].
  injection Hj' as <-. apply IH. lia.
Qed.

Lemma get_or_add_header_part_total (self : HeaderFooter) (d : Document) :
  fst (_get_or_add_header_part self d) ≠ Raise BudgetExhausted.
Proof.
  destruct self as [cl i]. unfold _get_or_add_header_part.
  destruct (decide (i < S (length (sectPrs d)))) as [Hlt|Hge].
  - by apply get_or_add_header_part_rec_total.
  - simpl. unfold _has_header_part, get_headerReference, the_sectPr, bind; simpl.
    rewrite lookup_ge_None_2; [done | lia].
Qed.

(** ** Header content resolution *)

(** C1: [_get_or_add_header_part] follows the three-case algorithm.  On a
    section with a primary header reference it answers that section's own
    part, the one the part store holds under the reference id.  On a section
    without one that has a preceding section it does exactly what resolving
    the preceding section's header does.  Hence in a document whose first
    three sections are A (defined), B (linked), C (linked), resolving C and
    resolving B both answer A's header part. *)
Theorem C1_header_part_resolution :
  (∀ (d : Document) (i : nat) (sp : CT_SectPr) (rId : nat),
     sectPrs d !! i = Some sp →
     headerReference sp !! PRIMARY = Some rId →
     _get_or_add_header_part (_Header i) d = header_part rId d)
  ∧ (∀ (d : Document) (i j : nat) (sp : CT_SectPr),
       sectPrs d !! i = Some sp →
       headerReference sp !! PRIMARY = None →
       fst (preceding_sectPr i d) = Ok (Some j) →
       _get_or_add_header_part (_Header i) d
       = _get_or_add_header_part (_Header j) d)
  ∧ (∀ (A B C : CT_SectPr) (rest : list CT_SectPr)
       (parts : gmap nat HeaderPart) (trace : list PartStoreCall)
       (rId : nat) (part : HeaderPart),
       headerReference A !! PRIMARY = Some rId →
       headerReference B !! PRIMARY = None →
       headerReference C !! PRIMARY = None →
       parts !! rId = Some part →
       let d := mkDocument (A :: B :: C :: rest) parts trace in
       _get_or_add_header_part (_Header 0) d = header_part rId d
       ∧ fst (header_part rId d) = Ok part
       ∧ _get_or_add_header_part (_Header 2) d = header_part rId d
       ∧ _get_or_add_header_part (_Header 1) d = header_part rId d).
Proof.
  assert (Hown : ∀ d i sp rId,
    sectPrs d !! i = Some sp →
    headerReference sp !! PRIMARY = Some rId →
    _get_or_add_header_part (_Header i) d = header_part rId d).
  { intros d i sp rId Hsp Href. rewrite get_or_add_header_part_unfold.
    rewrite (bind_ok _ _ _ _ _ (has_header_part_run d i sp Hsp cls_Header)).
    rewrite Href, bool_decide_eq_true_2 by eauto.
    by apply (header_part_of_run d i sp Hsp). }
  assert (Hprior : ∀ d i j sp,
    sectPrs d !! i = Some sp →
    headerReference sp !! PRIMARY = None →
    fst (preceding_sectPr i d) = Ok (Some j) →
    _get_or_add_header_part (_Header i) d = _get_or_add_header_part (_Header j) d).
  { intros d i j sp Hsp Href Hprec.
    rewrite (preceding_sectPr_run d i sp Hsp) in Hprec. simpl in Hprec.
    destruct i as [|i']; [done |]. injection Hprec as <-.
    rewrite get_or_add_header_part_unfold.
    rewrite (bind_ok _ _ _ _ _ (has_header_part_run d (S i') sp Hsp cls_Header)).
    rewrite Href, bool_decide_eq_false_2 by (intros [? ?]; done).
    by rewrite (bind_ok _ _ _ _ _ (prior_header_run d (S i') sp Hsp cls_Header)). }
  split; [exact Hown |]. split; [exact Hprior |].
  intros A B C rest parts trace rId part HA HB HC Hpart d.
  assert (H0 : _get_or_add_header_part (_Header 0) d = header_part rId d)
    by (by apply (Hown d 0 A rId)).
  assert (H1 : _get_or_add_header_part (_Header 1) d = header_part rId d)
    by (by rewrite (Hprior d 1 0 B)).
  split; [done |]. split.
  - unfold header_part, log_call, bind; simpl. by rewrite Hpart.
  - split; [| done]. by rewrite (Hprior d 2 1 C).
Qed.

Lemma C1_header_part_resolution_witness :
  _get_or_add_header_part (_Header 0) doc_chain = header_part 7 doc_chain
  ∧ _get_or_add_header_part (_Header 1) doc_chain
    = _get_or_add_header_part (_Header 0) doc_chain
  ∧ fst (_get_or_add_header_part (_Header 2) doc_chain) = Ok letterhead
  ∧ fst (_get_or_add_header_part (_Header 1) doc_chain) = Ok letterhead.
Proof.
  destruct C1_header_part_resolution as (Hown & Hprior & Hchain).
  split; [| split].
  - apply (Hown doc_chain 0 (sectPr_defined 7) 7); reflexivity.
  - apply (Hprior doc_chain 1 0 sectPr_linked); reflexivity.
  - destruct (Hchain (sectPr_defined 7) sectPr_linked sectPr_linked []
               {[ 7 := letterhead ]} [] 7 letterhead)
      as (_ & Hpart & HC & HB); [vm_compute; reflexivity ..|].
    split.
    + change (fst (_get_or_add_header_part (_Header 2) doc_chain) = Ok letterhead).
      unfold doc_chain. rewrite HC. exact Hpart.
    + unfold doc_chain. rewrite HB. exact Hpart.
Defined.

(** ** The linked state and its setter *)

Lemma is_linked_to_previous_header_run (d : Document) (i : nat) (sp : CT_SectPr) :
  sectPrs d !! i = Some sp →
  is_linked_to_previous (_Header i) d
  = (Ok (negb (bool_decide (is_Some (headerReference sp !! PRIMARY)))), d).
Proof.
  intros Hsp. unfold is_linked_to_previous. simpl.
  by rewrite (bind_ok _ _ _ _ _ (has_header_part_run d i sp Hsp cls_Header)).
Qed.

Lemma is_linked_to_previous_footer_run (d : Document) (i : nat) (sp : CT_SectPr) :
  sectPrs d !! i = Some sp →
  is_linked_to_previous (_Footer i) d
  = (Ok (negb (bool_decide (is_Some (footerReference sp !! PRIMARY)))), d).
Proof.
  intros Hsp. unfold is_linked_to_previous, _has_definition. simpl.
  rewrite (bind_ok _ _ _ _ _
             (bind_ok _ _ _ _ _ (get_footerReference_run d i sp Hsp PRIMARY))).
  unfold ret. by destruct (footerReference sp !! PRIMARY).
Qed.

(** Assigning the state the header already has changes nothing. *)
Lemma set_is_linked_to_previous_same (d : Document) (i : nat) (value : py_value) :
  fst (is_linked_to_previous (_Header i) d) = Ok (py_bool value) →
  set_is_linked_to_previous (_Header i) value d = (Ok tt, d).
Proof.
  intros Hcur. unfold set_is_linked_to_previous. simpl.
  pose proof (read_only_is_linked_to_previous (_Header i) d) as Hro.
  destruct (is_linked_to_previous (_Header i) d) as [r d'] eqn:Hrun.
  simpl in Hcur, Hro. subst r d'.
  rewrite (bind_ok _ _ _ _ _ Hrun). by rewrite eqb_reflx.
Qed.

(** Assigning [True] to a header with a definition, and [False] to a header
    without one. *)
Lemma set_is_linked_to_previous_link (d : Document) (i : nat) (sp : CT_SectPr)
  (rId : nat) (value : py_value) :
  sectPrs d !! i = Some sp →
  headerReference sp !! PRIMARY = Some rId →
  py_bool value = true →
  set_is_linked_to_previous (_Header i) value d
  = (Ok tt,
     {| sectPrs :=
          <[i := with_headerReference sp (delete PRIMARY (headerReference sp))]>
            (sectPrs d);
        related_parts := delete rId (related_parts d);
        calls := calls d ++ [Call_drop_header_part rId] |}).
Proof.
  intros Hsp Href Hval.
  unfold set_is_linked_to_previous. simpl. rewrite Hval.
  rewrite (bind_ok _ _ _ _ _ (is_linked_to_previous_header_run d i sp Hsp)).
  rewrite Href, bool_decide_eq_true_2 by eauto. simpl.
  by apply (drop_header_part_of_run d i sp cls_Header rId).
Qed.

Lemma set_is_linked_to_previous_unlink (d : Document) (i : nat) (sp : CT_SectPr)
  (value : py_value) :
  sectPrs d !! i = Some sp →
  headerReference sp !! PRIMARY = None →
  py_bool value = false →
  set_is_linked_to_previous (_Header i) value d
  = (Ok tt,
     {| sectPrs :=
          <[i := with_headerReference sp
                   (<[PRIMARY := fresh (dom (related_parts d))]> (headerReference sp))]>
            (sectPrs d);
        related_parts :=
          <[fresh (dom (related_parts d)) := {| element := [] |}]> (related_parts d);
        calls := calls d ++ [Call_add_header_part] |}).
Proof.
  intros Hsp Href Hval.
  unfold set_is_linked_to_previous. simpl. rewrite Hval.
  rewrite (bind_ok _ _ _ _ _ (is_linked_to_previous_header_run d i sp Hsp)).
  rewrite Href, bool_decide_eq_false_2 by (intros [? ?]; done). simpl.
  by rewrite (bind_ok _ _ _ _ _ (add_header_part_of_run d i sp cls_Header Hsp)).
Qed.

(** The element at [i] once its header references are replaced. *)
Lemma lookup_with_headerReference (d : Document) (i : nat) (sp : CT_SectPr)
  (refs : gmap WD_HEADER_FOOTER nat) (parts : gmap nat HeaderPart)
  (trace : list PartStoreCall) :
  sectPrs d !! i = Some sp →
  sectPrs {| sectPrs := <[i := with_headerReference sp refs]> (sectPrs d);
             related_parts := parts;
             calls := trace |} !! i
  = Some (with_headerReference sp refs).
Proof.
  intros Hsp. simpl. apply list_lookup_insert_eq. by eapply lookup_lt_Some.
Qed.

(** C2: assigning [True] to [is_linked_to_previous] of a header that has a
    definition removes the section's primary header reference, makes exactly
    one call to the part store, the discard of the part with the reference
    id just removed, and leaves a header for which the definition check is
    false and [is_linked_to_previous] is true. *)
Theorem C2_link_drops_header_part (d : Document) (i : nat) (sp : CT_SectPr)
  (rId : nat) (value : py_value) :
  sectPrs d !! i = Some sp →
  headerReference sp !! PRIMARY = Some rId →
  py_bool value = true →
  let d' :=
    {| sectPrs :=
         <[i := with_headerReference sp (delete PRIMARY (headerReference sp))]>
           (sectPrs d);
       related_parts := delete rId (related_parts d);
       calls := calls d ++ [Call_drop_header_part rId] |} in
  set_is_linked_to_previous (_Header i) value d = (Ok tt, d')
  ∧ get_headerReference i PRIMARY d' = (Ok None, d')
  ∧ _has_header_part (_Header i) d' = (Ok false, d')
  ∧ is_linked_to_previous (_Header i) d' = (Ok true, d').
Proof.
  intros Hsp Href Hval d'.
  assert (Hsp' : sectPrs d' !! i
                 = Some (with_headerReference sp (delete PRIMARY (headerReference sp)))).
  { by apply lookup_with_headerReference. }
  split; [| split; [| split]].
  - by apply set_is_linked_to_previous_link.
  - rewrite (get_headerReference_run d' i _ Hsp'). simpl.
    by rewrite lookup_delete_eq.
  - etrans; [apply (has_header_part_run d' i _ Hsp' cls_Header) |]. simpl.
    by rewrite lookup_delete_eq, bool_decide_eq_false_2 by (intros [? ?]; done).
  - rewrite (is_linked_to_previous_header_run d' i _ Hsp'). simpl.
    by rewrite lookup_delete_eq, bool_decide_eq_false_2 by (intros [? ?]; done).
Qed.

Lemma C2_link_drops_header_part_witness :
  set_is_linked_to_previous (_Header 0) (PyBool true) doc_chain
  = (Ok tt,
     mkDocument [sectPr_linked; sectPr_linked; sectPr_linked] ∅
       [Call_drop_header_part 7]).
Proof.
  destruct (C2_link_drops_header_part doc_chain 0 (sectPr_defined 7) 7 (PyBool true))
    as (Hset & _); [reflexivity ..|].
  rewrite Hset. vm_compute. reflexivity.
Defined.

(** C3: assigning [False] to [is_linked_to_previous] of a header without a
    definition makes exactly one call to the part store, which creates one
    new, empty header part under a reference id the store did not hold, and
    records that id as the section's primary header reference, so that the
    definition check is true afterwards; when a definition already exists
    the assignment changes nothing. *)
Theorem C3_unlink_adds_header_part (d : Document) (i : nat) (sp : CT_SectPr)
  (value : py_value) :
  sectPrs d !! i = Some sp →
  py_bool value = false →
  (headerReference sp !! PRIMARY = None →
   let rId := fresh (dom (related_parts d)) in
   let d' :=
     {| sectPrs :=
          <[i := with_headerReference sp (<[PRIMARY := rId]> (headerReference sp))]>
            (sectPrs d);
        related_parts := <[rId := {| element := [] |}]> (related_parts d);
        calls := calls d ++ [Call_add_header_part] |} in
   related_parts d !! rId = None
   ∧ set_is_linked_to_previous (_Header i) value d = (Ok tt, d')
   ∧ get_headerReference i PRIMARY d' = (Ok (Some rId), d')
   ∧ _has_header_part (_Header i) d' = (Ok true, d')
   ∧ is_linked_to_previous (_Header i) d' = (Ok false, d'))
  ∧ (is_Some (headerReference sp !! PRIMARY) →
     set_is_linked_to_previous (_Header i) value d = (Ok tt, d)
     ∧ _has_header_part (_Header i) d = (Ok true, d)).
Proof.
  intros Hsp Hval. split.
  - intros Href rId d'.
    assert (Hsp' : sectPrs d' !! i
                   = Some (with_headerReference sp
                             (<[PRIMARY := rId]> (headerReference sp)))).
    { by apply lookup_with_headerReference. }
    split; [apply fresh_rId_unused |]. split; [| split; [| split]].
    + by apply set_is_linked_to_previous_unlink.
    + rewrite (get_headerReference_run d' i _ Hsp'). simpl.
      by rewrite lookup_insert_eq.
    + etrans; [apply (has_header_part_run d' i _ Hsp' cls_Header) |]. simpl.
      by rewrite lookup_insert_eq, bool_decide_eq_true_2 by eauto.
    + rewrite (is_linked_to_previous_header_run d' i _ Hsp'). simpl.
      by rewrite lookup_insert_eq, bool_decide_eq_true_2 by eauto.
  - intros Href. split.
    + apply set_is_linked_to_previous_same.
      rewrite (is_linked_to_previous_header_run d i sp Hsp), Hval. simpl.
      by rewrite bool_decide_eq_true_2.
    + etrans; [apply (has_header_part_run d i sp Hsp cls_Header) |].
      by rewrite bool_decide_eq_true_2.
Qed.

Lemma C3_unlink_adds_header_part_witness :
  set_is_linked_to_previous (_Header 1) (PyBool false) doc_chain
  = (Ok tt,
     mkDocument [sectPr_defined 7; sectPr_defined 8; sectPr_linked]
       (<[8 := {| element := [] |}]> {[ 7 := letterhead ]})
       [Call_add_header_part])
  ∧ set_is_linked_to_previous (_Header 0) (PyBool false) doc_chain
    = (Ok tt, doc_chain).
Proof.
  split.
  - destruct (C3_unlink_adds_header_part doc_chain 1 sectPr_linked (PyBool false))
      as ((_ & Hset & _) & _); [reflexivity ..|].
    rewrite Hset. vm_compute. reflexivity.
  - destruct (C3_unlink_adds_header_part doc_chain 0 (sectPr_defined 7) (PyBool false))
      as (_ & Hnoop); [reflexivity ..|].
    apply Hnoop. vm_compute. eauto.
Defined.

(** C4: assigning to [is_linked_to_previous] the value it already has is a
    no-op in both directions.  Whatever value is assigned, when its truth
    value is the current state the document is left as it was: no part-store
    call, no change of references.  So a second assignment of [True] right
    after a first one changes nothing, and so does an assignment of [False]
    to a header that is already unlinked, be it by an earlier assignment or
    from the start: no second part is created. *)
Theorem C4_setter_same_value_noop (d : Document) (i : nat) :
  i < length (sectPrs d) →
  (∀ value : py_value,
     fst (is_linked_to_previous (_Header i) d) = Ok (py_bool value) →
     set_is_linked_to_previous (_Header i) value d = (Ok tt, d))
  ∧ (∀ d1 : Document,
       set_is_linked_to_previous (_Header i) (PyBool true) d = (Ok tt, d1) →
       set_is_linked_to_previous (_Header i) (PyBool true) d1 = (Ok tt, d1))
  ∧ (∃ d1 : Document,
       set_is_linked_to_previous (_Header i) (PyBool true) d = (Ok tt, d1))
  ∧ (∀ d1 : Document,
       set_is_linked_to_previous (_Header i) (PyBool false) d = (Ok tt, d1) →
       set_is_linked_to_previous (_Header i) (PyBool false) d1 = (Ok tt, d1))
  ∧ (∃ d1 : Document,
       set_is_linked_to_previous (_Header i) (PyBool false) d = (Ok tt, d1))
  ∧ (∀ sp : CT_SectPr,
       sectPrs d !! i = Some sp →
       is_Some (headerReference sp !! PRIMARY) →
       set_is_linked_to_previous (_Header i) (PyBool false) d = (Ok tt, d)).
Proof.
  intros Hi. destruct (lookup_lt_is_Some_2 _ _ Hi) as [sp Hsp].
  assert (Hsame : ∀ value : py_value,
    fst (is_linked_to_previous (_Header i) d) = Ok (py_bool value) →
    set_is_linked_to_previous (_Header i) value d = (Ok tt, d))
    by (intros value; apply set_is_linked_to_previous_same).
  split; [exact Hsame |].
  destruct (headerReference sp !! PRIMARY) as [rId|] eqn:Href.
  - (* the header has a definition *)
    assert (Hunlinked : set_is_linked_to_previous (_Header i) (PyBool false) d = (Ok tt, d)).
    { apply Hsame. rewrite (is_linked_to_previous_header_run d i sp Hsp), Href.
      by rewrite bool_decide_eq_true_2 by eauto. }
    pose proof (set_is_linked_to_previous_link d i sp rId (PyBool true) Hsp Href eq_refl)
      as Hlink.
    split; [| split; [eauto | split; [| split; [eauto | done]]]].
    + intros d1 Hd1. rewrite Hlink in Hd1. injection Hd1 as <-.
      apply set_is_linked_to_previous_same.
      erewrite is_linked_to_previous_header_run
        by (by apply lookup_with_headerReference).
      simpl. by rewrite lookup_delete_eq, bool_decide_eq_false_2 by (intros [? ?]; done).
    + intros d1 Hd1. rewrite Hunlinked in Hd1. by injection Hd1 as <-.
  - (* the header is linked *)
    assert (Hlinked : set_is_linked_to_previous (_Header i) (PyBool true) d = (Ok tt, d)).
    { apply Hsame. rewrite (is_linked_to_previous_header_run d i sp Hsp), Href.
      by rewrite bool_decide_eq_false_2 by (intros [? ?]; done). }
    pose proof (set_is_linked_to_previous_unlink d i sp (PyBool false) Hsp Href eq_refl)
      as Hunlink.
    split; [| split; [eauto | split; [| split; [eauto |]]]].
    + intros d1 Hd1. rewrite Hlinked in Hd1. by injection Hd1 as <-.
    + intros d1 Hd1. rewrite Hunlink in Hd1. injection Hd1 as <-.
      apply set_is_linked_to_previous_same.
      erewrite is_linked_to_previous_header_run
        by (by apply lookup_with_headerReference).
      simpl. by rewrite lookup_insert_eq, bool_decide_eq_true_2 by eauto.
    + intros sp' Hsp' [rId HrId]. congruence.
Qed.

Lemma C4_setter_same_value_noop_witness :
  set_is_linked_to_previous (_Header 0) (PyBool true)
    (snd (set_is_linked_to_previous (_Header 0) (PyBool true) doc_chain))
  = set_is_linked_to_previous (_Header 0) (PyBool true) doc_chain
  ∧ set_is_linked_to_previous (_Header 0) (PyBool false) doc_chain
    = (Ok tt, doc_chain).
Proof.
  assert (Hi : 0 < length (sectPrs doc_chain)) by (simpl; lia).
  destruct (C4_setter_same_value_noop doc_chain 0 Hi)
    as (_ & Htwice & [d1 Hd1] & _ & _ & Hunlinked).
  split.
  - rewrite Hd1. simpl. by apply Htwice.
  - apply (Hunlinked (sectPr_defined 7)); [reflexivity |]. vm_compute. eauto.
Defined.

(** C5: on a header and on a footer proxy, reading [is_linked_to_previous]
    answers true if and only if the section's properties element has no
    primary header reference, respectively no primary footer reference; the
    answer is computed from the references alone and the document is left as
    it was. *)
Theorem C5_linked_iff_no_reference (d : Document) (i : nat) (sp : CT_SectPr) :
  sectPrs d !! i = Some sp →
  (∃ b : bool,
     is_linked_to_previous (_Header i) d = (Ok b, d)
     ∧ (b = true ↔ headerReference sp !! PRIMARY = None))
  ∧ (∃ b : bool,
       is_linked_to_previous (_Footer i) d = (Ok b, d)
       ∧ (b = true ↔ footerReference sp !! PRIMARY = None)).
Proof.
  intros Hsp. split.
  - eexists. split; [by apply is_linked_to_previous_header_run |].
    destruct (headerReference sp !! PRIMARY) as [rId|].
    + rewrite bool_decide_eq_true_2 by eauto. simpl. split; done.
    + rewrite bool_decide_eq_false_2 by (intros [? ?]; done). done.
  - eexists. split; [by apply is_linked_to_previous_footer_run |].
    destruct (footerReference sp !! PRIMARY) as [rId|].
    + rewrite bool_decide_eq_true_2 by eauto. simpl. split; done.
    + rewrite bool_decide_eq_false_2 by (intros [? ?]; done). done.
Qed.

Lemma C5_linked_iff_no_reference_witness :
  is_linked_to_previous (_Header 1) doc_footer = (Ok true, doc_footer)
  ∧ is_linked_to_previous (_Footer 1) doc_footer = (Ok false, doc_footer).
Proof.
  destruct (C5_linked_iff_no_reference doc_footer 1 (sectPr_footer 9))
    as ([bh [Hh Hhiff]] & [bf [Hf Hfiff]]); [reflexivity |].
  split.
  - rewrite Hh. f_equal. f_equal. apply Hhiff. reflexivity.
  - rewrite Hf. f_equal. f_equal. destruct bf; [| reflexivity].
    assert (Hnone : footerReference (sectPr_footer 9) !! PRIMARY = None)
      by (apply Hfiff; reflexivity).
    vm_compute in Hnone. discriminate Hnone.
Defined.

(** C6: on a section that has no preceding section and no header
    definition, resolving the header content makes one call to the part
    store that creates a new, empty part under an unused reference id,
    records that id as the section's primary header reference and answers
    the new part; afterwards the definition check on that header is true and
    resolving again answers the same part. *)
Theorem C6_first_section_materializes (d : Document) (i : nat) (sp : CT_SectPr) :
  sectPrs d !! i = Some sp →
  headerReference sp !! PRIMARY = None →
  fst (preceding_sectPr i d) = Ok None →
  let rId := fresh (dom (related_parts d)) in
  let part := {| element := [] |} in
  let d' :=
    {| sectPrs :=
         <[i := with_headerReference sp (<[PRIMARY := rId]> (headerReference sp))]>
           (sectPrs d);
       related_parts := <[rId := part]> (related_parts d);
       calls := calls d ++ [Call_add_header_part] |} in
  related_parts d !! rId = None
  ∧ _get_or_add_header_part (_Header i) d = (Ok part, d')
  ∧ get_headerReference i PRIMARY d' = (Ok (Some rId), d')
  ∧ related_parts d' !! rId = Some part
  ∧ _has_header_part (_Header i) d' = (Ok true, d')
  ∧ fst (_get_or_add_header_part (_Header i) d') = Ok part.
Proof.
  intros Hsp Href Hprec rId part d'.
  rewrite (preceding_sectPr_run d i sp Hsp) in Hprec. simpl in Hprec.
  destruct i as [|j]; [clear Hprec | done].
  assert (Hsp' : sectPrs d' !! 0
                 = Some (with_headerReference sp
                           (<[PRIMARY := rId]> (headerReference sp))))
    by (by apply lookup_with_headerReference).
  assert (Hhas : _has_header_part (_Header 0) d' = (Ok true, d')).
  { etrans; [apply (has_header_part_run d' 0 _ Hsp' cls_Header) |]. simpl.
    by rewrite lookup_insert_eq, bool_decide_eq_true_2 by eauto. }
  split; [apply fresh_rId_unused |]. split; [| split; [| split; [| split]]].
  - rewrite get_or_add_header_part_unfold.
    rewrite (bind_ok _ _ _ _ _ (has_header_part_run d 0 sp Hsp cls_Header)).
    rewrite Href, bool_decide_eq_false_2 by (intros [? ?]; done).
    rewrite (bind_ok _ _ _ _ _ (prior_header_run d 0 sp Hsp cls_Header)).
    by apply (add_header_part_of_run d 0 sp cls_Header).
  - rewrite (get_headerReference_run d' 0 _ Hsp'). simpl.
    by rewrite lookup_insert_eq.
  - simpl. by rewrite lookup_insert_eq.
  - exact Hhas.
  - rewrite get_or_add_header_part_unfold.
    rewrite (bind_ok _ _ _ _ _ Hhas). cbv iota. unfold _Header.
    rewrite (header_part_of_run d' 0 _ Hsp' cls_Header rId)
      by (simpl; by rewrite lookup_insert_eq).
    unfold header_part, log_call, bind. simpl. by rewrite lookup_insert_eq.
Qed.

Lemma C6_first_section_materializes_witness :
  _get_or_add_header_part (_Header 0) doc_single
  = (Ok {| element := [] |},
     mkDocument [sectPr_defined 0] {[ 0 := {| element := [] |} ]}
       [Call_add_header_part]).
Proof.
  destruct (C6_first_section_materializes doc_single 0 sectPr_linked)
    as (_ & Hrun & _); [reflexivity ..|].
  rewrite Hrun. vm_compute. reflexivity.
Defined.

(** ** The definition check of the subclasses *)

Lemma has_definition_footer_run (d : Document) (i : nat) (sp : CT_SectPr) :
  sectPrs d !! i = Some sp →
  _has_definition (_Footer i) d
  = (Ok (bool_decide (is_Some (footerReference sp !! PRIMARY))), d).
Proof.
  intros Hsp. unfold _has_definition. simpl.
  rewrite (bind_ok _ _ _ _ _ (get_footerReference_run d i sp Hsp PRIMARY)).
  by destruct (footerReference sp !! PRIMARY).
Qed.

(** C7: the definition check [_has_definition] of a [_Header] proxy raises
    the not-implemented error of the base class whatever the document and
    the section, also when the section has a primary header reference:
    [_Header] supplies its check under the name [_has_header_part] only. *)
Theorem C7_header_has_definition_raises :
  (∀ (d : Document) (i : nat),
     _has_definition (_Header i) d = (Raise NotImplementedError, d))
  ∧ _has_definition (header (mkSection 0)) doc_chain
    = (Raise NotImplementedError, doc_chain)
  ∧ _has_header_part (header (mkSection 0)) doc_chain = (Ok true, doc_chain).
Proof. split; [done |]. split; reflexivity. Qed.

(** ** The sequence of sections *)

Lemma list_getitem_valid {A : Type} (l : list A) (i : nat) (x : A) :
  l !! i = Some x → list_getitem l (Z.of_nat i) = Ok x.
Proof.
  intros Hx. pose proof (lookup_lt_Some _ _ _ Hx) as Hlt.
  unfold list_getitem.
  destruct (Z.ltb_spec (Z.of_nat i) 0) as [Hneg|_]; [lia |].
  destruct (Z.leb_spec 0 (Z.of_nat i)) as [_|Hneg]; [| lia].
  destruct (Z.ltb_spec (Z.of_nat i) (Z.of_nat (length l))) as [_|Hge]; [| lia].
  simpl. by rewrite Nat2Z.id, Hx.
Qed.

Lemma list_getitem_beyond {A : Type} (l : list A) (key : Z) :
  (Z.of_nat (length l) ≤ key)%Z → list_getitem l key = Raise IndexError.
Proof.
  intros Hge. unfold list_getitem.
  destruct (Z.ltb_spec key 0) as [Hneg|_]; [lia |].
  destruct (Z.ltb_spec key (Z.of_nat (length l))) as [Hlt|_]; [lia |].
  by rewrite andb_false_r.
Qed.

Lemma len_run (d : Document) : __len__ d = (Ok (length (sectPrs d)), d).
Proof. unfold __len__, bind, sectPr_lst, ret. by rewrite length_seq. Qed.

(** C8: for every index [i] below the length of the sequence, indexed access
    answers a section that wraps the same section-properties element as the
    [i]-th section of the iteration, and the iteration yields the sections
    in the order of the underlying list of section-properties elements. *)
Theorem C8_getitem_agrees_with_iter (d : Document) (n i : nat) :
  fst (__len__ d) = Ok n →
  i < n →
  ∃ (lst : list nat) (sections : list Section) (s : Section),
    sectPr_lst d = (Ok lst, d)
    ∧ __iter__ d = (Ok sections, d)
    ∧ Section_sectPr <$> sections = lst
    ∧ __getitem__ (Key_int (Z.of_nat i)) d = (Ok (Item_section s), d)
    ∧ sections !! i = Some s
    ∧ lst !! i = Some (Section_sectPr s).
Proof.
  intros Hlen Hi. rewrite len_run in Hlen. injection Hlen as <-.
  assert (Hlst : seq 0 (length (sectPrs d)) !! i = Some i)
    by (by apply lookup_seq_lt).
  exists (seq 0 (length (sectPrs d))),
    (mkSection <$> seq 0 (length (sectPrs d))), (mkSection i).
  split; [done |]. split; [done |]. split; [| split; [| split]].
  - rewrite <- list_fmap_compose. apply list_fmap_id.
  - unfold __getitem__, bind, sectPr_lst, lift_result, ret.
    by rewrite (list_getitem_valid _ i i Hlst).
  - by rewrite list_lookup_fmap, Hlst.
  - done.
Qed.

Lemma C8_getitem_agrees_with_iter_witness :
  __getitem__ (Key_int 1) doc_chain = (Ok (Item_section (mkSection 1)), doc_chain)
  ∧ fst (__iter__ doc_chain) = Ok [mkSection 0; mkSection 1; mkSection 2].
Proof.
  destruct (C8_getitem_agrees_with_iter doc_chain 3 1)
    as (lst & sections & s & _ & Hiter & _ & Hget & Hs & _);
    [reflexivity | lia |].
  assert (Hsec : Ok sections = fst (__iter__ doc_chain))
    by (rewrite Hiter; reflexivity).
  vm_compute in Hsec. injection Hsec as ->.
  vm_compute in Hs. injection Hs as <-.
  split; [exact Hget | vm_compute; reflexivity].
Defined.

(** C9: indexed access with an integer index greater than or equal to the
    number of sections raises [IndexError]; nothing catches it and the
    document is left as it was. *)
Theorem C9_getitem_out_of_range (d : Document) (n : nat) (index : Z) :
  fst (__len__ d) = Ok n →
  (Z.of_nat n ≤ index)%Z →
  __getitem__ (Key_int index) d = (Raise IndexError, d).
Proof.
  intros Hlen Hge. rewrite len_run in Hlen. injection Hlen as <-.
  unfold __getitem__, bind, sectPr_lst, lift_result.
  rewrite list_getitem_beyond; [done |]. by rewrite length_seq.
Qed.

Lemma C9_getitem_out_of_range_witness :
  __getitem__ (Key_int 3) doc_chain = (Raise IndexError, doc_chain)
  ∧ __getitem__ (Key_int 8) doc_chain = (Raise IndexError, doc_chain).
Proof.
  split.
  - apply (C9_getitem_out_of_range doc_chain 3 3); [reflexivity | simpl; lia].
  - apply (C9_getitem_out_of_range doc_chain 3 8); [reflexivity | simpl; lia].
Defined.

(** ** Frame of the reads *)

Lemma header_part_of_keeps_document (self : HeaderFooter) (d : Document) :
  sectPrs (snd (_header_part self d)) = sectPrs d
  ∧ related_parts (snd (_header_part self d)) = related_parts d.
Proof.
  unfold _header_part, get_headerReference, the_sectPr, bind, ret.
  destruct (sectPrs d !! _sectPr self) as [sp|]; [| done].
  destruct (headerReference sp !! PRIMARY) as [rId|]; [| done].
  unfold header_part, log_call, bind. simpl.
  by destruct (related_parts d !! rId).
Qed.

(** C10: reading [is_linked_to_previous] on a header or footer proxy (on
    any proxy, whatever it answers or raises) leaves the document exactly as
    it was: no part is created or removed, no reference or property of a
    section changes, the part store is not called.  The same holds of every
    other modelled operation apart from the setter of
    [is_linked_to_previous] and header content resolution: the definition
    checks, the lookup of the prior header and the operations of the
    sequence leave the document as it was, and fetching a header's own part
    changes neither the sections nor the stored parts. *)
Theorem C10_reads_keep_document :
  (∀ (self : HeaderFooter) (d : Document),
     snd (is_linked_to_previous self d) = d)
  ∧ (∀ self : HeaderFooter, read_only (_has_definition self))
  ∧ (∀ self : HeaderFooter, read_only (_has_header_part self))
  ∧ (∀ self : HeaderFooter, read_only (_prior_header self))
  ∧ (∀ k : key, read_only (__getitem__ k))
  ∧ read_only __iter__
  ∧ read_only __len__
  ∧ (∀ (self : HeaderFooter) (d : Document),
       sectPrs (snd (_header_part self d)) = sectPrs d
       ∧ related_parts (snd (_header_part self d)) = related_parts d).
Proof.
  split; [exact read_only_is_linked_to_previous |].
  split; [exact read_only_has_definition |].
  split; [exact read_only_has_header_part |].
  split; [exact read_only_prior_header |].
  split; [exact read_only_getitem |].
  split; [exact read_only_iter |].
  split; [exact read_only_len |].
  exact header_part_of_keeps_document.
Qed.

(** * Further properties *)

(** ** Resolution along a chain of any length *)

Lemma header_part_run_Some (d : Document) (rId : nat) (p : HeaderPart) :
  related_parts d !! rId = Some p →
  header_part rId d = (Ok p, logged (Call_header_part rId) d).
Proof. intros Hp. unfold header_part, log_call, bind, logged. simpl. by rewrite Hp. Qed.

Lemma header_part_run_None (d : Document) (rId : nat) :
  related_parts d !! rId = None →
  header_part rId d = (Raise KeyError, logged (Call_header_part rId) d).
Proof. intros Hp. unfold header_part, log_call, bind, logged. simpl. by rewrite Hp. Qed.

Lemma resolve_own (d : Document) (i : nat) (sp : CT_SectPr) (rId : nat) :
  sectPrs d !! i = Some sp →
  headerReference sp !! PRIMARY = Some rId →
  _get_or_add_header_part (_Header i) d = header_part rId d.
Proof.
  intros Hsp Href. rewrite get_or_add_header_part_unfold.
  rewrite (bind_ok _ _ _ _ _ (has_header_part_run d i sp Hsp cls_Header)).
  rewrite Href, bool_decide_eq_true_2 by eauto.
  by apply (header_part_of_run d i sp Hsp).
Qed.

Lemma resolve_inherit (d : Document) (i : nat) (sp : CT_SectPr) :
  sectPrs d !! S i = Some sp →
  headerReference sp !! PRIMARY = None →
  _get_or_add_header_part (_Header (S i)) d = _get_or_add_header_part (_Header i) d.
Proof.
  intros Hsp Href. rewrite get_or_add_header_part_unfold.
  rewrite (bind_ok _ _ _ _ _ (has_header_part_run d (S i) sp Hsp cls_Header)).
  rewrite Href, bool_decide_eq_false_2 by (intros [? ?]; done).
  by rewrite (bind_ok _ _ _ _ _ (prior_header_run d (S i) sp Hsp cls_Header)).
Qed.

Lemma resolve_first (d : Document) (sp : CT_SectPr) :
  sectPrs d !! 0 = Some sp →
  headerReference sp !! PRIMARY = None →
  _get_or_add_header_part (_Header 0) d = (Ok {| element := [] |}, with_new_header d 0 sp).
Proof.
  intros Hsp Href. rewrite get_or_add_header_part_unfold.
  rewrite (bind_ok _ _ _ _ _ (has_header_part_run d 0 sp Hsp cls_Header)).
  rewrite Href, bool_decide_eq_false_2 by (intros [? ?]; done).
  rewrite (bind_ok _ _ _ _ _ (prior_header_run d 0 sp Hsp cls_Header)).
  by apply (add_header_part_of_run d 0 sp cls_Header).
Qed.

Lemma resolve_stale (d : Document) (i : nat) :
  sectPrs d !! i = None →
  _get_or_add_header_part (_Header i) d = (Raise DanglingHandle, d).
Proof.
  intros Hsp. rewrite get_or_add_header_part_unfold.
  unfold _has_header_part, get_headerReference, the_sectPr, bind; simpl.
  by rewrite Hsp.
Qed.

Lemma resolve_nearest (d : Document) (j : nat) (sp : CT_SectPr) (rId : nat) :
  sectPrs d !! j = Some sp →
  headerReference sp !! PRIMARY = Some rId →
  ∀ i, j ≤ i →
    (∀ k, j < k ≤ i → inherits_header d k) →
    _get_or_add_header_part (_Header i) d = header_part rId d.
Proof.
  intros Hsp Href. induction i as [|i IH]; intros Hji Hbetween.
  - assert (j = 0) as -> by lia. by apply (resolve_own d 0 sp).
  - destruct (decide (j = S i)) as [->|Hne]; [by apply (resolve_own d (S i) sp) |].
    destruct (Hbetween (S i)) as (spi & Hspi & Hnone); [lia |].
    rewrite (resolve_inherit d i spi Hspi Hnone).
    apply IH; [lia |]. intros k Hk. apply Hbetween. lia.
Qed.

Lemma resolve_all_linked (d : Document) (sp0 : CT_SectPr) :
  sectPrs d !! 0 = Some sp0 →
  ∀ i, (∀ k, k ≤ i → inherits_header d k) →
    _get_or_add_header_part (_Header i) d
    = (Ok {| element := [] |}, with_new_header d 0 sp0).
Proof.
  intros Hsp0. induction i as [|i IH]; intros Hall.
  - destruct (Hall 0) as (sp & Hsp & Hnone); [lia |].
    assert (sp = sp0) as -> by congruence. by apply resolve_first.
  - destruct (Hall (S i)) as (spi & Hspi & Hnone); [lia |].
    rewrite (resolve_inherit d i spi Hspi Hnone).
    apply IH. intros k Hk. apply Hall. lia.
Qed.

(** Walking back from a section either meets a section with a definition or
    finds every section up to the first one linked. *)
Lemma resolution_cases (d : Document) (i : nat) :
  i < length (sectPrs d) →
  (∃ (j : nat) (sp : CT_SectPr) (rId : nat),
     j ≤ i ∧ sectPrs d !! j = Some sp
     ∧ headerReference sp !! PRIMARY = Some rId
     ∧ ∀ k, j < k ≤ i → inherits_header d k)
  ∨ (∀ k, k ≤ i → inherits_header d k).
Proof.
  induction i as [|i IH]; intros Hi;
    destruct (lookup_lt_is_Some_2 _ _ Hi) as [sp Hsp];
    destruct (headerReference sp !! PRIMARY) as [rId|] eqn:Href.
  - left. exists 0, sp, rId. repeat split; [lia | done | done |]. intros k Hk. lia.
  - right. intros k Hk. assert (k = 0) as -> by lia. by exists sp.
  - left. exists (S i), sp, rId. repeat split; [lia | done | done |]. intros k Hk. lia.
  - destruct IH as [(j & spj & rId & Hj & Hspj & Hrefj & Hbetween)|Hall]; [lia | |].
    + left. exists j, spj, rId. repeat split; [lia | done | done |].
      intros k Hk. destruct (decide (k = S i)) as [->|Hne]; [by exists sp |].
      apply Hbetween. lia.
    + right. intros k Hk. destruct (decide (k = S i)) as [->|Hne]; [by exists sp |].
      apply Hall. lia.
Qed.

(** X1: whatever the length of the chain, resolving the header of a section
    answers what the part store holds for the nearest section at or before
    it that has a primary header reference, when all sections in between
    inherit; it is the outcome of resolving that section's own header. *)
Theorem X1_resolution_nearest_definition (d : Document) (i j : nat)
  (sp : CT_SectPr) (rId : nat) :
  j ≤ i →
  sectPrs d !! j = Some sp →
  headerReference sp !! PRIMARY = Some rId →
  (∀ k, j < k ≤ i → inherits_header d k) →
  _get_or_add_header_part (_Header i) d = header_part rId d
  ∧ _get_or_add_header_part (_Header i) d = _get_or_add_header_part (_Header j) d.
Proof.
  intros Hji Hsp Href Hbetween.
  assert (Hi : _get_or_add_header_part (_Header i) d = header_part rId d)
    by (by apply (resolve_nearest d j sp rId)).
  split; [done |]. rewrite Hi. symmetry. by apply (resolve_own d j sp).
Qed.

Lemma X1_resolution_nearest_definition_witness :
  fst (_get_or_add_header_part (_Header 2) doc_chain) = Ok letterhead.
Proof.
  destruct (X1_resolution_nearest_definition doc_chain 2 0 (sectPr_defined 7) 7)
    as [Hrun _]; [lia | reflexivity | reflexivity | |].
  - intros k Hk. exists sectPr_linked.
    assert (k = 1 ∨ k = 2) as [-> | ->] by lia; split; reflexivity.
  - rewrite Hrun. vm_compute. reflexivity.
Defined.

(** X2: when a section and all sections before it inherit their header,
    resolving its header creates the new, empty part for the first section
    of the document, not for the section itself: the first section receives
    the new reference, and a later section still has no definition
    afterwards. *)
Theorem X2_resolution_materializes_first_section (d : Document) (i : nat)
  (sp0 : CT_SectPr) :
  sectPrs d !! 0 = Some sp0 →
  (∀ k, k ≤ i → inherits_header d k) →
  let d' := with_new_header d 0 sp0 in
  _get_or_add_header_part (_Header i) d = (Ok {| element := [] |}, d')
  ∧ _has_header_part (_Header 0) d' = (Ok true, d')
  ∧ (0 < i → is_linked_to_previous (_Header i) d' = (Ok true, d')).
Proof.
  intros Hsp0 Hall d'. split; [by apply resolve_all_linked |].
  assert (Hsp0' : sectPrs d' !! 0
                  = Some (with_headerReference sp0
                            (<[PRIMARY := fresh (dom (related_parts d))]>
                               (headerReference sp0))))
    by (by apply lookup_with_headerReference).
  split.
  - etrans; [apply (has_header_part_run d' 0 _ Hsp0' cls_Header) |]. simpl.
    by rewrite lookup_insert_eq, bool_decide_eq_true_2 by eauto.
  - intros Hpos. destruct (Hall i) as (spi & Hspi & Hnone); [lia |].
    assert (Hspi' : sectPrs d' !! i = Some spi)
      by (simpl; rewrite list_lookup_insert_ne by lia; done).
    rewrite (is_linked_to_previous_header_run d' i spi Hspi'), Hnone.
    by rewrite bool_decide_eq_false_2 by (intros [? ?]; done).
Qed.

Lemma X2_resolution_materializes_first_section_witness :
  _get_or_add_header_part (_Header 2)
    (mkDocument [sectPr_linked; sectPr_linked; sectPr_linked] ∅ [])
  = (Ok {| element := [] |},
     mkDocument [sectPr_defined 0; sectPr_linked; sectPr_linked]
       {[ 0 := {| element := [] |} ]} [Call_add_header_part]).
Proof.
  destruct (X2_resolution_materializes_first_section
              (mkDocument [sectPr_linked; sectPr_linked; sectPr_linked] ∅ [])
              2 sectPr_linked) as (Hrun & _); [reflexivity | |].
  - intros k Hk. exists sectPr_linked.
    assert (k = 0 ∨ k = 1 ∨ k = 2) as [-> | [-> | ->]] by lia; split; reflexivity.
  - rewrite Hrun. vm_compute. reflexivity.
Defined.

(** The outcome of resolving the header of a section of the document. *)
Lemma resolution_outcome (d : Document) (i : nat) :
  i < length (sectPrs d) →
  (∃ (j : nat) (sp : CT_SectPr) (rId : nat),
     j ≤ i ∧ sectPrs d !! j = Some sp
     ∧ headerReference sp !! PRIMARY = Some rId
     ∧ (∀ k, j < k ≤ i → inherits_header d k)
     ∧ _get_or_add_header_part (_Header i) d = header_part rId d)
  ∨ (∃ sp0 : CT_SectPr,
       sectPrs d !! 0 = Some sp0
       ∧ (∀ k, k ≤ i → inherits_header d k)
       ∧ _get_or_add_header_part (_Header i) d
         = (Ok {| element := [] |}, with_new_header d 0 sp0)).
Proof.
  intros Hi.
  destruct (resolution_cases d i Hi)
    as [(j & sp & rId & Hj & Hsp & Href & Hbetween)|Hall].
  - left. exists j, sp, rId. repeat split; [done .. |].
    by apply (resolve_nearest d j sp rId).
  - right. destruct (Hall 0) as (sp0 & Hsp0 & _); [lia |].
    exists sp0. repeat split; [done .. |]. by apply resolve_all_linked.
Qed.

Lemma inherits_header_logged (c : PartStoreCall) (d : Document) (k : nat) :
  inherits_header d k → inherits_header (logged c d) k.
Proof. done. Qed.

Lemma inherits_header_with_new_header (d : Document) (sp0 : CT_SectPr) (k : nat) :
  0 < k → inherits_header d k → inherits_header (with_new_header d 0 sp0) k.
Proof.
  intros Hk (sp & Hsp & Hnone). exists sp. split; [| done].
  simpl. by rewrite list_lookup_insert_ne by lia.
Qed.

Lemma lookup_with_new_header (d : Document) (i : nat) (sp : CT_SectPr) :
  sectPrs d !! i = Some sp →
  sectPrs (with_new_header d i sp) !! i
  = Some (with_headerReference sp
            (<[PRIMARY := fresh (dom (related_parts d))]> (headerReference sp))).
Proof. intros Hsp. by apply lookup_with_headerReference. Qed.

(** X3: resolving is stable.  When resolving the header of a section has
    answered a part, resolving it again answers the same part, creates
    nothing and records nothing: sections and stored parts stay as the
    first resolution left them, and the only call to the part store is the
    fetch of that part. *)
Theorem X3_resolution_stable (d d1 : Document) (i : nat) (part : HeaderPart) :
  _get_or_add_header_part (_Header i) d = (Ok part, d1) →
  ∃ rId : nat,
    related_parts d1 !! rId = Some part
    ∧ _get_or_add_header_part (_Header i) d1
      = (Ok part, logged (Call_header_part rId) d1).
Proof.
  intros Hrun.
  assert (Hi : i < length (sectPrs d)).
  { destruct (sectPrs d !! i) as [sp|] eqn:Hsp; [by eapply lookup_lt_Some |].
    rewrite (resolve_stale d i Hsp) in Hrun. done. }
  destruct (resolution_outcome d i Hi)
    as [(j & sp & rId & Hj & Hsp & Href & Hbetween & Hres)|(sp0 & Hsp0 & Hall & Hres)];
    rewrite Hres in Hrun.
  - destruct (related_parts d !! rId) as [p|] eqn:Hp.
    + rewrite (header_part_run_Some d rId p Hp) in Hrun.
      injection Hrun as -> <-. exists rId. split; [done |].
      rewrite (resolve_nearest (logged (Call_header_part rId) d) j sp rId Hsp Href i Hj)
        by (intros k Hk; by apply inherits_header_logged, Hbetween).
      by apply header_part_run_Some.
    + by rewrite (header_part_run_None d rId Hp) in Hrun.
  - injection Hrun as <- <-.
    exists (fresh (dom (related_parts d))).
    assert (Hstored : related_parts (with_new_header d 0 sp0)
                      !! fresh (dom (related_parts d)) = Some {| element := [] |})
      by (simpl; by rewrite lookup_insert_eq).
    split; [done |].
    rewrite (resolve_nearest (with_new_header d 0 sp0) 0 _
               (fresh (dom (related_parts d))) (lookup_with_new_header d 0 sp0 Hsp0)).
    + by apply header_part_run_Some.
    + simpl. by rewrite lookup_insert_eq.
    + lia.
    + intros k Hk. apply inherits_header_with_new_header; [lia |]. apply Hall. lia.
Qed.

Lemma X3_resolution_stable_witness :
  ∃ rId : nat,
    _get_or_add_header_part (_Header 2)
      (snd (_get_or_add_header_part (_Header 2) doc_chain))
    = (Ok letterhead,
       logged (Call_header_part rId)
         (snd (_get_or_add_header_part (_Header 2) doc_chain))).
Proof.
  destruct (X3_resolution_stable doc_chain
              (snd (_get_or_add_header_part (_Header 2) doc_chain)) 2 letterhead)
    as (rId & _ & Hagain); [vm_compute; reflexivity |].
  exists rId. exact Hagain.
Defined.

(** X4: in a document where every primary header reference names a stored
    part, resolving the header of any section of the document answers a
    part, never an error, and leaves a document in which every primary
    header reference still names a stored part. *)
Theorem X4_resolution_succeeds (d : Document) (i : nat) :
  references_resolve d →
  i < length (sectPrs d) →
  ∃ (part : HeaderPart) (d' : Document),
    _get_or_add_header_part (_Header i) d = (Ok part, d')
    ∧ references_resolve d'.
Proof.
  intros Hwf Hi.
  destruct (resolution_outcome d i Hi)
    as [(j & sp & rId & Hj & Hsp & Href & Hbetween & Hres)|(sp0 & Hsp0 & Hall & Hres)];
    rewrite Hres.
  - destruct (Hwf j sp rId Hsp Href) as [p Hp].
    exists p, (logged (Call_header_part rId) d).
    split; [by apply header_part_run_Some | exact Hwf].
  - eexists _, _. split; [done |].
    intros k sp rId Hsp Href. simpl.
    destruct (decide (fresh (dom (related_parts d)) = rId)) as [<-|Hne];
      [by rewrite lookup_insert_eq |].
    rewrite lookup_insert_ne by done.
    destruct k as [|k].
    + rewrite (lookup_with_new_header d 0 sp0 Hsp0) in Hsp. injection Hsp as <-.
      simpl in Href. rewrite lookup_insert_eq in Href. congruence.
    + simpl in Hsp. rewrite list_lookup_insert_ne in Hsp by lia.
      by apply (Hwf (S k) sp rId).
Qed.

Lemma references_resolve_doc_chain : references_resolve doc_chain.
Proof.
  intros k sp rId Hsp Href.
  destruct k as [|[|[|k]]]; simpl in Hsp; [| | | done];
    injection Hsp as <-; vm_compute in Href; [| done | done].
  injection Href as <-. vm_compute. eauto.
Qed.

Lemma X4_resolution_succeeds_witness :
  ∃ (part : HeaderPart) (d' : Document),
    _get_or_add_header_part (_Header 1) doc_chain = (Ok part, d').
Proof.
  destruct (X4_resolution_succeeds doc_chain 1 references_resolve_doc_chain)
    as (part & d' & Hrun & _); [simpl; lia |].
  by exists part, d'.
Defined.

(** ** What the header operations leave alone *)

Lemma same_but_primary_header_refl (sp : CT_SectPr) :
  same_but_primary_header sp sp.
Proof. by repeat split. Qed.

Lemma same_but_primary_header_insert (sp : CT_SectPr) (rId : nat) :
  same_but_primary_header sp
    (with_headerReference sp (<[PRIMARY := rId]> (headerReference sp))).
Proof.
  repeat split. intros type_ Hne. simpl. by rewrite lookup_insert_ne by done.
Qed.

Lemma same_but_primary_header_delete (sp : CT_SectPr) :
  same_but_primary_header sp
    (with_headerReference sp (delete PRIMARY (headerReference sp))).
Proof.
  repeat split. intros type_ Hne. simpl. by rewrite lookup_delete_ne by done.
Qed.

(** X5: resolving the header of a section never removes anything.  The
    number of sections stays; every section after the first keeps its
    element unchanged and the first keeps its footer references, page setup,
    non-primary header references and any primary header reference it had;
    every stored part stays stored under its id; at most one call reaches
    the part store and it is never a discard. *)
Theorem X5_resolution_only_adds (d : Document) (i : nat) :
  let d' := snd (_get_or_add_header_part (_Header i) d) in
  length (sectPrs d') = length (sectPrs d)
  ∧ (∀ (k : nat) (sp : CT_SectPr),
       sectPrs d !! k = Some sp →
       ∃ sp' : CT_SectPr,
         sectPrs d' !! k = Some sp'
         ∧ same_but_primary_header sp sp'
         ∧ (0 < k → sp' = sp)
         ∧ (∀ rId, headerReference sp !! PRIMARY = Some rId →
                   headerReference sp' !! PRIMARY = Some rId))
  ∧ related_parts d ⊆ related_parts d'
  ∧ (∃ new : list PartStoreCall,
       calls d' = calls d ++ new
       ∧ length new ≤ 1
       ∧ ∀ rId, Call_drop_header_part rId ∉ new).
Proof.
  intros d'. subst d'.
  assert (Hsame : ∀ new d1, length new ≤ 1 →
    (∀ rId, Call_drop_header_part rId ∉ new) →
    sectPrs d1 = sectPrs d → related_parts d1 = related_parts d →
    calls d1 = calls d ++ new →
    length (sectPrs d1) = length (sectPrs d)
    ∧ (∀ k sp, sectPrs d !! k = Some sp →
         ∃ sp', sectPrs d1 !! k = Some sp' ∧ same_but_primary_header sp sp'
                ∧ (0 < k → sp' = sp)
                ∧ (∀ rId, headerReference sp !! PRIMARY = Some rId →
                          headerReference sp' !! PRIMARY = Some rId))
    ∧ related_parts d ⊆ related_parts d1
    ∧ (∃ new, calls d1 = calls d ++ new ∧ length new ≤ 1
              ∧ ∀ rId, Call_drop_header_part rId ∉ new)).
  { intros new d1 Hlen Hnodrop Hs Hp Hc. rewrite Hs, Hp.
    split; [done |]. split; [| split; [done | by exists new]].
    intros k sp Hsp. exists sp.
    split; [done |]. split; [apply same_but_primary_header_refl | done]. }
  destruct (decide (i < length (sectPrs d))) as [Hi|Hi].
  - destruct (resolution_outcome d i Hi)
      as [(j & sp & rId & Hj & Hsp & Href & Hbetween & Hres)|(sp0 & Hsp0 & Hall & Hres)];
      rewrite Hres.
    + apply (Hsame [Call_header_part rId]); [simpl; lia | | | |].
      * intros r Hin. apply list_elem_of_singleton in Hin. done.
      * by destruct (related_parts d !! rId) as [p|] eqn:Hp;
          [rewrite (header_part_run_Some d rId p Hp)
          | rewrite (header_part_run_None d rId Hp)].
      * by destruct (related_parts d !! rId) as [p|] eqn:Hp;
          [rewrite (header_part_run_Some d rId p Hp)
          | rewrite (header_part_run_None d rId Hp)].
      * by destruct (related_parts d !! rId) as [p|] eqn:Hp;
          [rewrite (header_part_run_Some d rId p Hp)
          | rewrite (header_part_run_None d rId Hp)].
    + destruct (Hall 0) as (sp0' & Hsp0' & Hnone0); [lia |].
      assert (sp0' = sp0) as -> by congruence.
      simpl. split; [apply length_insert |]. split; [| split].
      * intros k sp Hsp. destruct k as [|k].
        -- assert (sp = sp0) as -> by congruence.
           eexists. split;
             [apply list_lookup_insert_eq; by eapply lookup_lt_Some |].
           split; [apply same_but_primary_header_insert |].
           split; [lia |]. intros rId Href. congruence.
        -- exists sp. rewrite list_lookup_insert_ne by lia.
           split; [done |]. split; [apply same_but_primary_header_refl | done].
      * apply insert_subseteq, fresh_rId_unused.
      * exists [Call_add_header_part]. split; [done |]. split; [simpl; lia |].
        intros r Hin. apply list_elem_of_singleton in Hin. done.
  - rewrite (resolve_stale d i) by (apply lookup_ge_None_2; lia).
    apply (Hsame []); [simpl; lia | | done | done |].
    + intros r Hin. by apply not_elem_of_nil in Hin.
    + simpl. by rewrite app_nil_r.
Qed.

Lemma set_is_linked_to_previous_stale (d : Document) (i : nat) (value : py_value) :
  sectPrs d !! i = None →
  set_is_linked_to_previous (_Header i) value d = (Raise DanglingHandle, d).
Proof.
  intros Hsp.
  unfold set_is_linked_to_previous, is_linked_to_previous, _has_header_part,
    get_headerReference, the_sectPr, bind; simpl.
  by rewrite Hsp.
Qed.

(** X6: assigning to [is_linked_to_previous] of the header of a section
    touches that section's primary header reference only.  The number of
    sections stays, every other section keeps its element unchanged, and
    the section itself keeps its footer references, its page setup and its
    non-primary header references; so the linked state of every footer, and
    of every other header, reads as before. *)
Theorem X6_setter_frame (d : Document) (i : nat) (value : py_value) :
  let d' := snd (set_is_linked_to_previous (_Header i) value d) in
  length (sectPrs d') = length (sectPrs d)
  ∧ (∀ (k : nat) (sp : CT_SectPr),
       sectPrs d !! k = Some sp →
       ∃ sp' : CT_SectPr,
         sectPrs d' !! k = Some sp'
         ∧ same_but_primary_header sp sp'
         ∧ (k ≠ i → sp' = sp))
  ∧ (∀ k : nat,
       fst (is_linked_to_previous (_Footer k) d')
       = fst (is_linked_to_previous (_Footer k) d))
  ∧ (∀ k : nat, k ≠ i →
       fst (is_linked_to_previous (_Header k) d')
       = fst (is_linked_to_previous (_Header k) d)).
Proof.
  intros d'.
  assert (Hframe : length (sectPrs d') = length (sectPrs d)
    ∧ ∀ k sp, sectPrs d !! k = Some sp →
        ∃ sp', sectPrs d' !! k = Some sp' ∧ same_but_primary_header sp sp'
               ∧ (k ≠ i → sp' = sp)).
  { assert (Hnoop : d' = d →
      length (sectPrs d') = length (sectPrs d)
      ∧ ∀ k sp, sectPrs d !! k = Some sp →
          ∃ sp', sectPrs d' !! k = Some sp' ∧ same_but_primary_header sp sp'
                 ∧ (k ≠ i → sp' = sp)).
    { intros ->. split; [done |]. intros k sp Hsp. exists sp.
      split; [done |]. split; [apply same_but_primary_header_refl | done]. }
    assert (Hupd : ∀ spi spi' parts trace,
      sectPrs d !! i = Some spi →
      same_but_primary_header spi spi' →
      d' = {| sectPrs := <[i := spi']> (sectPrs d);
              related_parts := parts; calls := trace |} →
      length (sectPrs d') = length (sectPrs d)
      ∧ ∀ k sp, sectPrs d !! k = Some sp →
          ∃ sp', sectPrs d' !! k = Some sp' ∧ same_but_primary_header sp sp'
                 ∧ (k ≠ i → sp' = sp)).
    { intros spi spi' parts trace Hspi Hsb ->. simpl.
      split; [apply length_insert |]. intros k sp Hsp.
      destruct (decide (k = i)) as [->|Hne].
      - assert (sp = spi) as -> by congruence. exists spi'.
        split; [| done]. apply list_lookup_insert_eq. by eapply lookup_lt_Some.
      - exists sp. rewrite list_lookup_insert_ne by done.
        split; [done |]. split; [apply same_but_primary_header_refl | done]. }
    subst d'.
    destruct (sectPrs d !! i) as [spi|] eqn:Hspi;
      [| apply Hnoop; by rewrite (set_is_linked_to_previous_stale d i value Hspi)].
    destruct (headerReference spi !! PRIMARY) as [rId|] eqn:Href;
      destruct (py_bool value) eqn:Hval.
    - eapply (Hupd spi); [done | apply same_but_primary_header_delete |].
      by rewrite (set_is_linked_to_previous_link d i spi rId value Hspi Href Hval).
    - apply Hnoop. rewrite set_is_linked_to_previous_same; [done |].
      rewrite (is_linked_to_previous_header_run d i spi Hspi), Href, Hval.
      by rewrite bool_decide_eq_true_2 by eauto.
    - apply Hnoop. rewrite set_is_linked_to_previous_same; [done |].
      rewrite (is_linked_to_previous_header_run d i spi Hspi), Href, Hval.
      by rewrite bool_decide_eq_false_2 by (intros [? ?]; done).
    - eapply (Hupd spi); [done | apply same_but_primary_header_insert |].
      by rewrite (set_is_linked_to_previous_unlink d i spi value Hspi Href Hval). }
  destruct Hframe as [Hlen Hframe]. split; [done |]. split; [done |]. split.
  - intros k. destruct (sectPrs d !! k) as [sp|] eqn:Hsp.
    + destruct (Hframe k sp Hsp) as (sp' & Hsp' & (Hfooter & _) & _).
      rewrite (is_linked_to_previous_footer_run d' k sp' Hsp').
      rewrite (is_linked_to_previous_footer_run d k sp Hsp).
      by rewrite Hfooter.
    + assert (Hsp' : sectPrs d' !! k = None).
      { apply lookup_ge_None. rewrite Hlen. by apply lookup_ge_None. }
      unfold is_linked_to_previous, _has_definition, get_footerReference,
        the_sectPr, bind; simpl.
      by rewrite Hsp, Hsp'.
  - intros k Hne. destruct (sectPrs d !! k) as [sp|] eqn:Hsp.
    + destruct (Hframe k sp Hsp) as (sp' & Hsp' & _ & Heq).
      rewrite (Heq Hne) in Hsp'.
      rewrite (is_linked_to_previous_header_run d' k sp Hsp').
      by rewrite (is_linked_to_previous_header_run d k sp Hsp).
    + assert (Hsp' : sectPrs d' !! k = None).
      { apply lookup_ge_None. rewrite Hlen. by apply lookup_ge_None. }
      unfold is_linked_to_previous, _has_header_part, get_headerReference,
        the_sectPr, bind; simpl.
      by rewrite Hsp, Hsp'.
Qed.

(** ** Sequences of assignments and resolutions *)

(** X7: giving a linked header a definition and linking it again restores
    the document: sections and stored parts are as before the two
    assignments, and the part store was called twice, to add a part and to
    discard the part with the id it had just handed out. *)
Theorem X7_unlink_then_link_restores (d : Document) (i : nat) (sp : CT_SectPr) :
  sectPrs d !! i = Some sp →
  headerReference sp !! PRIMARY = None →
  ∃ d1 : Document,
    set_is_linked_to_previous (_Header i) (PyBool false) d = (Ok tt, d1)
    ∧ set_is_linked_to_previous (_Header i) (PyBool true) d1
      = (Ok tt,
         {| sectPrs := sectPrs d;
            related_parts := related_parts d;
            calls := calls d ++ [Call_add_header_part;
                                 Call_drop_header_part (fresh (dom (related_parts d)))] |}).
Proof.
  intros Hsp Href. exists (with_new_header d i sp).
  split; [by apply set_is_linked_to_previous_unlink |].
  rewrite (set_is_linked_to_previous_link (with_new_header d i sp) i _
             (fresh (dom (related_parts d))) (PyBool true)
             (lookup_with_new_header d i sp Hsp));
    [| simpl; by rewrite lookup_insert_eq | done].
  f_equal. simpl. f_equal.
  - rewrite list_insert_insert_eq. apply list_insert_id.
    unfold with_headerReference. simpl.
    rewrite delete_insert_id by done. rewrite Hsp. by destruct sp.
  - apply delete_insert_id, fresh_rId_unused.
  - by rewrite <- app_assoc.
Qed.

Lemma X7_unlink_then_link_restores_witness :
  set_is_linked_to_previous (_Header 1) (PyBool true)
    (snd (set_is_linked_to_previous (_Header 1) (PyBool false) doc_chain))
  = (Ok tt,
     mkDocument (sectPrs doc_chain) (related_parts doc_chain)
       [Call_add_header_part; Call_drop_header_part 8]).
Proof.
  destruct (X7_unlink_then_link_restores doc_chain 1 sectPr_linked)
    as (d1 & Hfirst & Hsecond); [reflexivity | reflexivity |].
  rewrite Hfirst. simpl. rewrite Hsecond. vm_compute. reflexivity.
Defined.

(** X8: linking a header and giving it a definition again does not bring
    its content back: whatever the header's part held, the header then
    shows a new part whose content is empty. *)
Theorem X8_link_then_unlink_empties (d : Document) (i : nat) (sp : CT_SectPr)
  (rId : nat) :
  sectPrs d !! i = Some sp →
  headerReference sp !! PRIMARY = Some rId →
  ∃ d1 d2 : Document,
    set_is_linked_to_previous (_Header i) (PyBool true) d = (Ok tt, d1)
    ∧ set_is_linked_to_previous (_Header i) (PyBool false) d1 = (Ok tt, d2)
    ∧ fst (_get_or_add_header_part (_Header i) d2) = Ok {| element := [] |}
    ∧ fst (_element (_Header i) d2) = Ok [].
Proof.
  intros Hsp Href.
  pose proof (set_is_linked_to_previous_link d i sp rId (PyBool true) Hsp Href eq_refl)
    as Hlink.
  set (sp1 := with_headerReference sp (delete PRIMARY (headerReference sp))) in *.
  set (d1 := {| sectPrs := <[i := sp1]> (sectPrs d);
                related_parts := delete rId (related_parts d);
                calls := calls d ++ [Call_drop_header_part rId] |}) in *.
  assert (Hsp1 : sectPrs d1 !! i = Some sp1)
    by (by apply lookup_with_headerReference).
  assert (Href1 : headerReference sp1 !! PRIMARY = None)
    by (simpl; apply lookup_delete_eq).
  exists d1, (with_new_header d1 i sp1).
  split; [done |].
  split; [by apply set_is_linked_to_previous_unlink |].
  assert (Hres : fst (_get_or_add_header_part (_Header i) (with_new_header d1 i sp1))
                 = Ok {| element := [] |}).
  { rewrite (resolve_own _ i _ (fresh (dom (related_parts d1)))
               (lookup_with_new_header d1 i sp1 Hsp1))
      by (simpl; by rewrite lookup_insert_eq).
    rewrite (header_part_run_Some _ _ {| element := [] |}); [done |].
    simpl. by rewrite lookup_insert_eq. }
  split; [done |].
  unfold _element, bind.
  destruct (_get_or_add_header_part (_Header i) (with_new_header d1 i sp1))
    as [[p|e] d3]; simpl in Hres; [| done].
  by injection Hres as ->.
Qed.

Lemma X8_link_then_unlink_empties_witness :
  fst (_element (_Header 0) doc_chain) = Ok ["Letterhead"%string]
  ∧ ∃ d1 d2 : Document,
      set_is_linked_to_previous (_Header 0) (PyBool true) doc_chain = (Ok tt, d1)
      ∧ set_is_linked_to_previous (_Header 0) (PyBool false) d1 = (Ok tt, d2)
      ∧ fst (_element (_Header 0) d2) = Ok [].
Proof.
  split; [vm_compute; reflexivity |].
  destruct (X8_link_then_unlink_empties doc_chain 0 (sectPr_defined 7) 7)
    as (d1 & d2 & H1 & H2 & _ & H3); [reflexivity | reflexivity |].
  by exists d1, d2.
Defined.

(** X9: once a linked header is given a definition, resolution stops at it:
    resolving the header of that section, or of any later section that
    inherits through it, answers the section's own new, empty part rather
    than the part of an earlier section. *)
Theorem X9_unlinked_header_shadows_earlier (d : Document) (i m : nat)
  (sp : CT_SectPr) :
  sectPrs d !! i = Some sp →
  headerReference sp !! PRIMARY = None →
  i ≤ m →
  (∀ k, i < k ≤ m → inherits_header d k) →
  ∃ d1 : Document,
    set_is_linked_to_previous (_Header i) (PyBool false) d = (Ok tt, d1)
    ∧ _get_or_add_header_part (_Header m) d1
      = (Ok {| element := [] |},
         logged (Call_header_part (fresh (dom (related_parts d)))) d1).
Proof.
  intros Hsp Href Him Hbetween. exists (with_new_header d i sp).
  split; [by apply set_is_linked_to_previous_unlink |].
  rewrite (resolve_nearest (with_new_header d i sp) i _
             (fresh (dom (related_parts d))) (lookup_with_new_header d i sp Hsp)).
  - apply header_part_run_Some. simpl. by rewrite lookup_insert_eq.
  - simpl. by rewrite lookup_insert_eq.
  - done.
  - intros k Hk. destruct (Hbetween k Hk) as (spk & Hspk & Hnone).
    exists spk. split; [| done]. simpl. by rewrite list_lookup_insert_ne by lia.
Qed.

Lemma X9_unlinked_header_shadows_earlier_witness :
  fst (_get_or_add_header_part (_Header 2) doc_chain) = Ok letterhead
  ∧ fst (_get_or_add_header_part (_Header 2)
           (snd (set_is_linked_to_previous (_Header 1) (PyBool false) doc_chain)))
    = Ok {| element := [] |}.
Proof.
  split; [vm_compute; reflexivity |].
  destruct (X9_unlinked_header_shadows_earlier doc_chain 1 2 sectPr_linked)
    as (d1 & Hset & Hres); [reflexivity | reflexivity | lia | |].
  - intros k Hk. assert (k = 2) as -> by lia. exists sectPr_linked.
    split; reflexivity.
  - rewrite Hset. simpl. rewrite Hres. reflexivity.
Defined.

(** X10: once the header of a section after the first is linked, it shows
    what the preceding section shows: resolving it does exactly what
    resolving the header of the preceding section does. *)
Theorem X10_linked_header_follows_previous (d : Document) (j : nat)
  (sp : CT_SectPr) (rId : nat) :
  sectPrs d !! S j = Some sp →
  headerReference sp !! PRIMARY = Some rId →
  ∃ d1 : Document,
    set_is_linked_to_previous (_Header (S j)) (PyBool true) d = (Ok tt, d1)
    ∧ _get_or_add_header_part (_Header (S j)) d1
      = _get_or_add_header_part (_Header j) d1.
Proof.
  intros Hsp Href. eexists. split.
  - by apply (set_is_linked_to_previous_link d (S j) sp rId).
  - eapply resolve_inherit.
    + by apply lookup_with_headerReference.
    + simpl. apply lookup_delete_eq.
Qed.

Lemma X10_linked_header_follows_previous_witness :
  fst (_get_or_add_header_part (_Header 1)
         (snd (set_is_linked_to_previous (_Header 1) (PyBool true)
                 (mkDocument [sectPr_defined 7; sectPr_defined 8]
                    {[ 7 := letterhead ]} []))))
  = Ok letterhead.
Proof.
  destruct (X10_linked_header_follows_previous
              (mkDocument [sectPr_defined 7; sectPr_defined 8] {[ 7 := letterhead ]} [])
              0 (sectPr_defined 8) 8)
    as (d1 & Hset & Hres); [reflexivity | reflexivity |].
  rewrite Hset. simpl. rewrite Hres.
  injection Hset as <-. vm_compute. reflexivity.
Defined.

(** ** Indexing and slicing the sequence of sections *)

Lemma list_getitem_negative {A : Type} (l : list A) (key : Z) :
  (- Z.of_nat (length l) ≤ key < 0)%Z →
  list_getitem l key = list_getitem l (key + Z.of_nat (length l)).
Proof.
  intros Hkey. unfold list_getitem.
  destruct (Z.ltb_spec key 0) as [_|Hge]; [| lia].
  by destruct (Z.ltb_spec (key + Z.of_nat (length l)) 0) as [Hneg|_]; [lia |].
Qed.

Lemma list_getitem_below {A : Type} (l : list A) (key : Z) :
  (key < - Z.of_nat (length l))%Z → list_getitem l key = Raise IndexError.
Proof.
  intros Hkey. unfold list_getitem.
  destruct (Z.ltb_spec key 0) as [_|Hge]; [| lia].
  by destruct (Z.leb_spec 0 (key + Z.of_nat (length l))) as [Hnn|_]; [lia |].
Qed.

Lemma getitem_int_run (d : Document) (key : Z) :
  __getitem__ (Key_int key) d
  = (match list_getitem (seq 0 (length (sectPrs d))) key with
     | Ok sectPr => Ok (Item_section (mkSection sectPr))
     | Raise e => Raise e
     end, d).
Proof.
  unfold __getitem__, bind, sectPr_lst, lift_result, ret.
  by destruct (list_getitem _ key).
Qed.

(** X11: a negative index counts from the end.  For [-len <= key < 0],
    [sections[key]] is [sections[key + len]], the section at position
    [key + len] of the document; in particular [sections[-1]] is the last
    section. *)
Theorem X11_getitem_negative_index (d : Document) (n : nat) (key : Z) :
  fst (__len__ d) = Ok n →
  (- Z.of_nat n ≤ key < 0)%Z →
  __getitem__ (Key_int key) d = __getitem__ (Key_int (key + Z.of_nat n)) d
  ∧ __getitem__ (Key_int key) d
    = (Ok (Item_section (mkSection (Z.to_nat (key + Z.of_nat n)))), d).
Proof.
  intros Hlen Hkey. rewrite len_run in Hlen. injection Hlen as <-.
  rewrite !getitem_int_run.
  rewrite list_getitem_negative by (by rewrite length_seq).
  rewrite length_seq. split; [done |].
  rewrite <- (Z2Nat.id (key + Z.of_nat (length (sectPrs d)))) at 1 by lia.
  erewrite list_getitem_valid; [done |]. apply lookup_seq_lt. lia.
Qed.

Lemma X11_getitem_negative_index_witness :
  __getitem__ (Key_int (-1)) doc_chain
  = (Ok (Item_section (mkSection 2)), doc_chain).
Proof.
  destruct (X11_getitem_negative_index doc_chain 3 (-1)) as [_ Hlast];
    [reflexivity | simpl; lia |].
  exact Hlast.
Defined.

(** X12: an integer index below [-len] raises [IndexError], as one at or
    above [len] does; the document is left as it was.  On a document
    without sections every integer index raises. *)
Theorem X12_getitem_below_range (d : Document) (n : nat) (key : Z) :
  fst (__len__ d) = Ok n →
  (key < - Z.of_nat n)%Z ∨ n = 0 →
  __getitem__ (Key_int key) d = (Raise IndexError, d).
Proof.
  intros Hlen Hkey. rewrite len_run in Hlen. injection Hlen as <-.
  rewrite getitem_int_run.
  destruct (Z.ltb_spec key 0) as [Hneg|Hnn].
  - rewrite list_getitem_below; [done |]. rewrite length_seq. lia.
  - rewrite list_getitem_beyond; [done |]. rewrite length_seq. lia.
Qed.

Lemma X12_getitem_below_range_witness :
  __getitem__ (Key_int (-4)) doc_chain = (Raise IndexError, doc_chain)
  ∧ __getitem__ (Key_int 0) (mkDocument [] ∅ []) = (Raise IndexError, mkDocument [] ∅ []).
Proof.
  split.
  - apply (X12_getitem_below_range doc_chain 3 (-4)); [reflexivity | left; simpl; lia].
  - apply (X12_getitem_below_range (mkDocument [] ∅ []) 0 0); [reflexivity | by right].
Defined.

(** The elements a forward slice with step one selects. *)
Lemma omap_lookup_forward {A : Type} (l : list A) (lo : nat) :
  ∀ n : nat, lo + n ≤ length l →
    omap (λ k : Z, l !! Z.to_nat (Z.of_nat lo + k * 1)) (seqZ 0 (Z.of_nat n))
    = take n (drop lo l).
Proof.
  induction n as [|n IH]; intros Hn; [done |].
  rewrite seqZ_S, omap_app, IH by lia.
  destruct (lookup_lt_is_Some_2 l (lo + n)) as [x Hx]; [lia |].
  rewrite (take_S_r _ _ x) by (by rewrite lookup_drop).
  f_equal. simpl.
  replace (Z.to_nat (Z.of_nat lo + (0 + Z.of_nat n) * 1)) with (lo + n) by lia.
  by rewrite Hx.
Qed.

Lemma list_getslice_forward {A : Type} (l : list A) (start stop : option nat)
  (step : option Z) :
  step = None ∨ step = Some 1%Z →
  list_getslice l (Z.of_nat <$> start) (Z.of_nat <$> stop) step
  = Ok (take (default (length l) stop - default 0 start)
          (drop (default 0 start) l)).
Proof.
  intros Hstep.
  assert (default 1%Z step = 1%Z) as Hst by (by destruct Hstep as [-> | ->]).
  unfold list_getslice. rewrite Hst. simpl. f_equal.
  set (a := default 0 start). set (b := default (length l) stop).
  set (lo := a `min` length l). set (hi := b `min` length l).
  assert (Hlo : match Z.of_nat <$> start with
                | Some i => slice_adjust (Z.of_nat (length l)) 1 i
                | None => 0%Z
                end = Z.of_nat lo).
  { subst lo a. destruct start as [a|]; simpl; [| lia].
    unfold slice_adjust.
    destruct (Z.ltb_spec (Z.of_nat a) 0); [lia |].
    destruct (Z.leb_spec (Z.of_nat (length l)) (Z.of_nat a)); simpl; lia. }
  assert (Hhi : match Z.of_nat <$> stop with
                | Some i => slice_adjust (Z.of_nat (length l)) 1 i
                | None => Z.of_nat (length l)
                end = Z.of_nat hi).
  { subst hi b. destruct stop as [b|]; simpl; [| lia].
    unfold slice_adjust.
    destruct (Z.ltb_spec (Z.of_nat b) 0); [lia |].
    destruct (Z.leb_spec (Z.of_nat (length l)) (Z.of_nat b)); simpl; lia. }
  rewrite Hlo, Hhi.
  assert (Hcount : (if (Z.of_nat lo <? Z.of_nat hi)%Z
                    then ((Z.of_nat hi - Z.of_nat lo - 1) / 1 + 1)%Z else 0%Z)
                   = Z.of_nat (hi - lo)).
  { destruct (Z.ltb_spec (Z.of_nat lo) (Z.of_nat hi)); [| lia].
    rewrite Z.div_1_r. lia. }
  rewrite Hcount, omap_lookup_forward by lia.
  destruct (decide (length l ≤ a)) as [Hage|Halt].
  - rewrite !drop_ge by lia. by rewrite !take_nil.
  - replace lo with a by lia.
    destruct (decide (length l ≤ b)) as [Hbge|Hblt].
    + rewrite !take_ge by (rewrite length_drop; lia). done.
    + by replace hi with b by lia.
Qed.

(** X13: a slice with step one never raises, whatever its bounds: for
    non-negative bounds [sections[a:b]] is the iteration with its first [a]
    sections dropped and cut after [b - a] sections, an absent start
    standing for [0] and an absent stop for the length; so [sections[:]] is
    the whole iteration, and a start at or beyond the length or a stop not
    above the start gives the empty list. *)
Theorem X13_getitem_forward_slice (d : Document) (start stop : option nat)
  (step : option Z) :
  step = None ∨ step = Some 1%Z →
  ∃ (n : nat) (sections : list Section),
    __len__ d = (Ok n, d)
    ∧ __iter__ d = (Ok sections, d)
    ∧ __getitem__ (Key_slice (Z.of_nat <$> start) (Z.of_nat <$> stop) step) d
      = (Ok (Item_list (take (default n stop - default 0 start)
                          (drop (default 0 start) sections))), d).
Proof.
  intros Hstep.
  exists (length (sectPrs d)), (mkSection <$> seq 0 (length (sectPrs d))).
  split; [apply len_run |]. split; [done |].
  unfold __getitem__, bind, sectPr_lst, lift_result, ret.
  rewrite (list_getslice_forward _ start stop step Hstep).
  by rewrite fmap_take, fmap_drop, length_seq.
Qed.

Lemma X13_getitem_forward_slice_witness :
  __getitem__ (Key_slice (Some 1%Z) (Some 9%Z) None) doc_chain
  = (Ok (Item_list [mkSection 1; mkSection 2]), doc_chain).
Proof.
  destruct (X13_getitem_forward_slice doc_chain (Some 1) (Some 9) None)
    as (n & sections & Hlen & Hiter & Hslice); [by left |].
  change (Z.of_nat <$> Some 1) with (Some 1%Z) in Hslice.
  change (Z.of_nat <$> Some 9) with (Some 9%Z) in Hslice.
  rewrite Hslice.
  assert (Hsec : Ok sections = fst (__iter__ doc_chain)) by (by rewrite Hiter).
  vm_compute in Hsec. injection Hsec as ->. reflexivity.
Defined.

(** The elements the slice [[::-1]] selects. *)
Lemma omap_lookup_backward {A : Type} (l : list A) :
  omap (λ k : Z, l !! Z.to_nat (Z.of_nat (length l) - 1 + k * -1))
    (seqZ 0 (Z.of_nat (length l)))
  = reverse l.
Proof.
  induction l as [|x l IH]; [done |].
  rewrite reverse_cons, <- IH.
  change (length (x :: l)) with (S (length l)).
  rewrite seqZ_S, omap_app. f_equal.
  - apply list_omap_ext, Forall_Forall2_diag, Forall_forall.
    intros k Hk. apply elem_of_seqZ in Hk.
    replace (Z.to_nat (Z.of_nat (S (length l)) - 1 + k * -1))
      with (S (Z.to_nat (Z.of_nat (length l) - 1 + k * -1))) by lia.
    done.
  - simpl.
    by replace (Z.to_nat (Z.of_nat (S (length l)) - 1 + (0 + Z.of_nat (length l)) * -1))
      with 0 by lia.
Qed.

Lemma list_getslice_reverse {A : Type} (l : list A) :
  list_getslice l None None (Some (-1)%Z) = Ok (reverse l).
Proof.
  unfold list_getslice. simpl. f_equal.
  destruct (Z.ltb_spec (-1) (Z.of_nat (length l) - 1)) as [Hpos|Hzero].
  - replace ((Z.of_nat (length l) - 1 - -1 - 1) / - (-1) + 1)%Z
      with (Z.of_nat (length l))
      by (change (- (-1))%Z with 1%Z; rewrite Z.div_1_r; lia).
    apply omap_lookup_backward.
  - destruct l; [done | simpl in Hzero; lia].
Qed.

(** X14: the slice [sections[::-1]] is the iteration in reverse order. *)
Theorem X14_getitem_reverse_slice (d : Document) :
  ∃ sections : list Section,
    __iter__ d = (Ok sections, d)
    ∧ __getitem__ (Key_slice None None (Some (-1)%Z)) d
      = (Ok (Item_list (reverse sections)), d).
Proof.
  exists (mkSection <$> seq 0 (length (sectPrs d))). split; [done |].
  unfold __getitem__, bind, sectPr_lst, lift_result, ret.
  by rewrite list_getslice_reverse, fmap_reverse.
Qed.

Lemma list_getslice_elements {A : Type} (l : list A) (start stop step : option Z) :
  step ≠ Some 0%Z →
  ∃ sl : list A,
    list_getslice l start stop step = Ok sl ∧ ∀ x, x ∈ sl → x ∈ l.
Proof.
  intros Hstep. unfold list_getslice.
  destruct (Z.eqb_spec (default 1%Z step) 0) as [Hzero|_].
  { destruct step as [z|]; simpl in Hzero; [congruence | lia]. }
  eexists. split; [done |].
  intros x Hx. apply list_elem_of_omap in Hx as (k & _ & Hk).
  by eapply list_elem_of_lookup_2.
Qed.

(** X15: slicing never raises an out-of-range error.  With any bounds and
    any step other than zero a slice answers a list, each section of which
    is one the iteration yields; a step of zero raises [ValueError].  The
    document is left as it was. *)
Theorem X15_getitem_slice_within (d : Document) (start stop step : option Z) :
  (step = Some 0%Z →
   __getitem__ (Key_slice start stop step) d = (Raise ValueError, d))
  ∧ (step ≠ Some 0%Z →
     ∃ sl sections : list Section,
       __getitem__ (Key_slice start stop step) d = (Ok (Item_list sl), d)
       ∧ __iter__ d = (Ok sections, d)
       ∧ ∀ s, s ∈ sl → s ∈ sections).
Proof.
  split.
  - intros ->. reflexivity.
  - intros Hstep.
    destruct (list_getslice_elements (seq 0 (length (sectPrs d))) start stop step Hstep)
      as (sl & Hsl & Hin).
    exists (mkSection <$> sl), (mkSection <$> seq 0 (length (sectPrs d))).
    split; [| split; [done |]].
    + unfold __getitem__, bind, sectPr_lst, lift_result, ret. by rewrite Hsl.
    + intros s Hs. apply list_elem_of_fmap in Hs as (x & -> & Hx).
      by apply list_elem_of_fmap_2, Hin.
Qed.

Lemma X15_getitem_slice_within_witness :
  __getitem__ (Key_slice (Some 5%Z) (Some (-9)%Z) (Some 0%Z)) doc_chain
  = (Raise ValueError, doc_chain)
  ∧ ∃ sl : list Section,
      __getitem__ (Key_slice (Some 5%Z) (Some (-9)%Z) (Some (-2)%Z)) doc_chain
      = (Ok (Item_list sl), doc_chain).
Proof.
  split.
  - by apply (X15_getitem_slice_within doc_chain (Some 5%Z) (Some (-9)%Z) (Some 0%Z)).
  - destruct (X15_getitem_slice_within doc_chain (Some 5%Z) (Some (-9)%Z) (Some (-2)%Z))
      as [_ Hok].
    destruct Hok as (sl & sections & Hsl & _); [done |].
    by exists sl.
Defined.

(** ** Assignments seen through the getter and through resolution *)



(** X17: the header of the first section does not stay linked once its
    content is asked for.  After [True] is assigned to a defined header of
    the first section the header reads as linked; resolving it then creates
    a new, empty part for it, and it reads as not linked again. *)
Theorem X17_first_section_relinked_rematerializes (d : Document)
  (sp : CT_SectPr) (rId : nat) :
  sectPrs d !! 0 = Some sp →
  headerReference sp !! PRIMARY = Some rId →
  ∃ d1 d2 : Document,
    set_is_linked_to_previous (_Header 0) (PyBool true) d = (Ok tt, d1)
    ∧ is_linked_to_previous (_Header 0) d1 = (Ok true, d1)
    ∧ _get_or_add_header_part (_Header 0) d1 = (Ok {| element := [] |}, d2)
    ∧ is_linked_to_previous (_Header 0) d2 = (Ok false, d2)
    ∧ calls d2 = calls d ++ [Call_drop_header_part rId; Call_add_header_part].
Proof.
  intros Hsp Href.
  set (sp1 := with_headerReference sp (delete PRIMARY (headerReference sp))).
  set (d1 := {| sectPrs := <[0 := sp1]> (sectPrs d);
                related_parts := delete rId (related_parts d);
                calls := calls d ++ [Call_drop_header_part rId] |}).
  assert (Hsp1 : sectPrs d1 !! 0 = Some sp1)
    by (by apply lookup_with_headerReference).
  assert (Href1 : headerReference sp1 !! PRIMARY = None)
    by (simpl; apply lookup_delete_eq).
  exists d1, (with_new_header d1 0 sp1).
  split; [by apply (set_is_linked_to_previous_link d 0 sp rId) |].
  split.
  { rewrite (is_linked_to_previous_header_run d1 0 sp1 Hsp1), Href1.
    by rewrite bool_decide_eq_false_2 by (intros [? ?]; done). }
  split; [by apply resolve_first |].
  split.
  - rewrite (is_linked_to_previous_header_run _ 0 _ (lookup_with_new_header d1 0 sp1 Hsp1)).
    simpl. by rewrite lookup_insert_eq, bool_decide_eq_true_2 by eauto.
  - simpl. by rewrite <- app_assoc.
Qed.

Lemma X17_first_section_relinked_rematerializes_witness :
  ∃ d1 d2 : Document,
    set_is_linked_to_previous (_Header 0) (PyBool true) doc_chain = (Ok tt, d1)
    ∧ _get_or_add_header_part (_Header 0) d1 = (Ok {| element := [] |}, d2)
    ∧ is_linked_to_previous (_Header 0) d2 = (Ok false, d2).
Proof.
  destruct (X17_first_section_relinked_rematerializes doc_chain (sectPr_defined 7) 7)
    as (d1 & d2 & Hset & _ & Hres & Hget & _); [reflexivity | reflexivity |].
  by exists d1, d2.
Defined.
